(** * The Site Automation block editor: list population and override merge

    A shallow embedding of the edit component of the Site Automation block
    (the [SiteAutomationBlockEdit] closure): its three asynchronous routines
    [getPosts], [updatePost] and [updateInnerBlocks], the in-place updates
    they perform on the array of inner blocks selected from the editor store,
    and the calls they make to the host (REST requests, [replaceInnerBlocks],
    [alert], the console).

    JavaScript objects are finite maps from property names to values, arrays
    are lists, [undefined] array elements are [None].  The routines live in a
    state-and-exception monad over the captured [innerBlocks] array and the
    trace of host calls.  Each routine is run to completion: what the host
    does between an [await] and its continuation is outside this model. *)

From stdpp Require Import gmap strings list fin_maps.
From Stdlib Require Import ZArith.

Local Open Scope Z_scope.

(** ** JavaScript values *)

(** Primitive values held by block attributes and response records.
    Numbers are the integer-valued ones (post identifiers, timestamps). *)
Inductive jsval : Type :=
| VUndefined
| VNull
| VBool (b : bool)
| VNum (n : Z)
| VStr (s : string).

#[global] Instance jsval_eq_dec : EqDecision jsval.
Proof. solve_decision. Defined.

(** [a === b] on primitives. *)
Definition strict_eq (a b : jsval) : bool := bool_decide (a = b).

(** ToBoolean. *)
Definition truthy (v : jsval) : bool :=
  match v with
  | VUndefined | VNull => false
  | VBool b => b
  | VNum n => negb (n =? 0)
  | VStr s => negb (bool_decide (s = ""%string))
  end.

(** A plain object: property name to value. *)
Abbreviation JsObject := (gmap string jsval).

(** [o.k]: a missing property reads as [undefined]. *)
Definition prop (o : JsObject) (k : string) : jsval := default VUndefined (o !! k).

(** A default parameter [x = d] takes [d] exactly when the argument is
    [undefined]. *)
Definition default_param (arg d : jsval) : jsval :=
  match arg with
  | VUndefined => d
  | _ => arg
  end.

(** ** Blocks, configuration, requests *)

Record Block : Type := mkBlock {
  blockName : string;
  attributes : JsObject
}.

#[global] Instance Block_eq_dec : EqDecision Block.
Proof. solve_decision. Defined.

(** [createBlock(name, attributes)] of the host, as far as this component
    reads its result: a block of that name holding those attributes. *)
Definition createBlock (name : string) (attrs : JsObject) : Block :=
  mkBlock name attrs.

(** The destructured props of the edit component. *)
Record Config : Type := mkConfig {
  pageName : string;
  widgetName : string;
  displayPostExcept : bool;
  displayAuthor : bool;
  displayPostDate : bool;
  displayFeaturedImage : bool;
  addLinkToFeaturedImage : bool;
  clientId : string
}.

(** The options object handed to [apiFetch].  [path] is
    [addQueryArgs(url, args)], kept as the pair of [url] and [args] in the
    order of the object literal; [data] is the request body. *)
Record Request : Type := mkRequest {
  path : string;
  query : list (string * jsval);
  method : string;
  data : option (list (string * jsval))
}.

(** How the promise of [apiFetch] settles. *)
Inductive Response (A : Type) : Type :=
| Resolved (payload : A)
| Rejected (err : jsval).
Arguments Resolved {A} payload.
Arguments Rejected {A} err.

(** The remote API: the get-posts endpoint answers with an array of post
    records (or nothing), the update-posts endpoint with an acknowledgement. *)
Record Network : Type := mkNetwork {
  get_posts : Request -> Response (option (list JsObject));
  update_posts : Request -> Response jsval
}.

(** ** Host calls and the world *)

Inductive event : Type :=
| ApiFetch (r : Request)
| Alert (msg : string)
| ConsoleLog (v : jsval)
| ConsoleDir (v : jsval)
| ReplaceInnerBlocks (cid : string) (blocks : list (option Block)) (updateSelection : bool).

(** [innerBlocks] is the array selected from the store, shared with it and
    updated in place ([None] when the selector gave [undefined]; a [None]
    element is an [undefined] slot).  [trace] lists the host calls made so
    far, oldest first. *)
Record World : Type := mkWorld {
  innerBlocks : option (list (option Block));
  trace : list event
}.

Inductive outcome (A : Type) : Type :=
| Returned (a : A)
| Threw (e : string).
Arguments Returned {A} a.
Arguments Threw {A} e.

(** State and exceptions; effects made before a throw stay. *)
Definition M (A : Type) : Type := World -> outcome A * World.

#[global] Instance M_ret : MRet M := λ A a w, (Returned a, w).
#[global] Instance M_bind : MBind M := λ A B f m w,
  match m w with
  | (Returned a, w') => f a w'
  | (Threw e, w') => (Threw e, w')
  end.

Definition throw {A} (e : string) : M A := λ w, (Threw e, w).

Definition liftO {A} (o : outcome A) : M A := λ w, (o, w).

Definition emit (e : event) : M unit :=
  λ w, (Returned tt, mkWorld (innerBlocks w) (trace w ++ [e])).

Definition readInnerBlocks : M (option (list (option Block))) :=
  λ w, (Returned (innerBlocks w), w).

Definition writeInnerBlocks (l : list (option Block)) : M unit :=
  λ w, (Returned tt, mkWorld (Some l) (trace w)).

Definition TypeError : string := "TypeError".

(** [a[i]]: [undefined] outside the array. *)
Definition array_get {A} (l : list (option A)) (i : Z) : option A :=
  if bool_decide (0 <= i) then mjoin (l !! Z.to_nat i) else None.

(** [innerBlocks[index].attributes.key]. *)
Definition readAttribute (index : Z) (key : string) : M jsval :=
  l ← readInnerBlocks;
  match array_get (default [] l) index with
  | Some b => mret (prop (attributes b) key)
  | None => throw TypeError
  end.

(** [innerBlocks[index].attributes.key = v], on the shared block object. *)
Definition writeAttribute (index : Z) (key : string) (v : jsval) : M unit :=
  l ← readInnerBlocks;
  match array_get (default [] l) index with
  | Some b =>
      writeInnerBlocks
        (<[Z.to_nat index := Some (mkBlock (blockName b) (<[key := v]> (attributes b)))]>
           (default [] l))
  | None => throw TypeError
  end.

(** [a.splice(start, 0, x)]: the start is clamped as Array.prototype.splice
    does. *)
Definition splice_insert {A} (l : list A) (start : Z) (x : A) : list A :=
  let len := Z.of_nat (length l) in
  let n := Z.to_nat (if bool_decide (start < 0) then Z.max (len + start) 0
                     else Z.min start len) in
  take n l ++ x :: drop n l.

(** [innerBlocks.splice(start, 0, x)], on the shared array. *)
Definition spliceInnerBlocks (start : Z) (x : option Block) : M unit :=
  l ← readInnerBlocks;
  writeInnerBlocks (splice_insert (default [] l) start x).

(** [a.findIndex(p)], where the callback may throw. *)
Fixpoint findIndex_from {A} (p : A -> outcome bool) (l : list A) (i : Z) : outcome Z :=
  match l with
  | [] => Returned (-1)
  | x :: r =>
      match p x with
      | Threw e => Threw e
      | Returned true => Returned i
      | Returned false => findIndex_from p r (i + 1)
      end
  end.

Definition findIndex {A} (p : A -> outcome bool) (l : list A) : outcome Z :=
  findIndex_from p l 0.

(** [(item) => item.attributes.postUpdated === true]. *)
Definition isPostUpdated (item : option Block) : outcome bool :=
  match item with
  | None => Threw TypeError
  | Some b => Returned (strict_eq (prop (attributes b) "postUpdated") (VBool true))
  end.

(** ** The routines of the component *)

Definition sophiEndpoint : string := "/sophi/v1/".

Definition apiFetch {A} (server : Request -> Response A) (r : Request) : M (Response A) :=
  _ ← emit (ApiFetch r); mret (server r).

Definition alert (msg : string) : M unit := emit (Alert msg).
Definition console_log (v : jsval) : M unit := emit (ConsoleLog v).
Definition console_dir (v : jsval) : M unit := emit (ConsoleDir v).

Definition replaceInnerBlocks (cid : string) (blocks : list (option Block))
    (updateSelection : bool) : M unit :=
  emit (ReplaceInnerBlocks cid blocks updateSelection).

Definition notFoundMessage : string := "Posts not found in the site!".

(** The attributes of the list item built from one response record. *)
Definition itemAttributes (cfg : Config) (item : JsObject) : JsObject :=
  list_to_map
    [ ("postUpdated"%string, VBool false);
      ("postLink"%string, prop item "postLink");
      ("postTitle"%string, prop item "post_title");
      ("postExcept"%string,
        if displayPostExcept cfg then prop item "post_excerpt" else VStr "");
      ("featuredImage"%string,
        if displayFeaturedImage cfg && truthy (prop item "featuredImage")
        then prop item "featuredImage" else VStr "");
      ("linkToFeaturedImage"%string, VBool (addLinkToFeaturedImage cfg));
      ("postAuthor"%string,
        if displayAuthor cfg then prop item "postAuthor" else VStr "");
      ("postDate"%string,
        if displayPostDate cfg then prop item "postDate" else VStr "");
      ("postDateC"%string,
        if displayPostDate cfg then prop item "postDateC" else VStr "") ].

Definition listItem (cfg : Config) (item : JsObject) : Block :=
  createBlock "sophi/page-list-item" (itemAttributes cfg item).

(** [data?.length] as a condition. *)
Definition hasLength {A} (payload : option (list A)) : bool :=
  match payload with
  | Some (_ :: _) => true
  | _ => false
  end.

Definition getPostsRequest (cfg : Config) (overridePostID : jsval) : Request :=
  let queryArgs :=
    [ ("overridePostID"%string, overridePostID);
      ("pageName"%string, VStr (pageName cfg));
      ("widgetName"%string, VStr (widgetName cfg));
      ("displayFeaturedImage"%string, VBool (displayFeaturedImage cfg));
      ("displayAuthor"%string, VBool (displayAuthor cfg));
      ("displayPostDate"%string, VBool (displayPostDate cfg));
      ("displayPostExcept"%string, VBool (displayPostExcept cfg)) ] in
  mkRequest (sophiEndpoint +:+ "get-posts") queryArgs "GET" None.

(** [getPosts(overridePostID = '')].  The result is [None] for [undefined]
    and [Some items] for the array [updatedInnerBlocks]. *)
Definition getPosts (cfg : Config) (net : Network) (arg : jsval) : M (option (list Block)) :=
  let overridePostID := default_param arg (VStr "") in
  if bool_decide (pageName cfg = ""%string) || bool_decide (widgetName cfg = ""%string)
  then mret None
  else
    resp ← apiFetch (get_posts net) (getPostsRequest cfg overridePostID);
    updatedInnerBlocks ←
      match resp with
      | Resolved payload =>
          if hasLength payload
          then mret (listItem cfg <$> default [] payload)
          else (_ ← alert notFoundMessage; mret [])
      | Rejected err => (_ ← console_log err; mret [])
      end;
    if negb (strict_eq overridePostID (VStr ""))
    then mret (Some updatedInnerBlocks)
    else
      _ ← replaceInnerBlocks (clientId cfg) (Some <$> updatedInnerBlocks) false;
      mret None.

Definition updatePostRequest (cfg : Config)
    (ruleType overridePostID overrideExpiry position : jsval) : Request :=
  let queryArgs :=
    [ ("ruleType"%string, ruleType);
      ("overridePostID"%string, overridePostID);
      ("overrideExpiry"%string, overrideExpiry);
      ("position"%string, position);
      ("pageName"%string, VStr (pageName cfg));
      ("widgetName"%string, VStr (widgetName cfg)) ] in
  mkRequest (sophiEndpoint +:+ "update-posts") queryArgs "POST" None.

(** [updatePost({ ruleType, overridePostID, overrideExpiry, position })]. *)
Definition updatePost (cfg : Config) (net : Network)
    (ruleType overridePostID overrideExpiry position : jsval) : M unit :=
  resp ← apiFetch (update_posts net)
           (updatePostRequest cfg ruleType overridePostID overrideExpiry position);
  match resp with
  | Resolved payload => console_log payload
  | Rejected err => console_dir err
  end.

(** [newInnerBlocks[0]]: indexing [undefined] throws, indexing past the end
    of an array reads [undefined]. *)
Definition firstOf (newInnerBlocks : option (list Block)) : M (option Block) :=
  match newInnerBlocks with
  | None => throw TypeError
  | Some items => mret (head items)
  end.

(** [updateInnerBlocks()]. *)
Definition updateInnerBlocks (cfg : Config) (net : Network) : M unit :=
  captured ← readInnerBlocks;
  match captured with
  | None => mret tt
  | Some l =>
      index ← liftO (findIndex isPostUpdated l);
      if bool_decide (index ≠ -1) then
        _ ← writeAttribute index "postUpdated" (VBool false);
        rule ← readAttribute index "overrideRule";
        if strict_eq rule (VStr "in") then
          _ ← writeAttribute index "overrideRule" (VStr "");
          overridePostID ← readAttribute index "overridePostID";
          overrideExpiry ← readAttribute index "overrideExpiry";
          newInnerBlocks ← getPosts cfg net overridePostID;
          inserted ← firstOf newInnerBlocks;
          _ ← spliceInnerBlocks (index + 1) inserted;
          blocks ← readInnerBlocks;
          _ ← replaceInnerBlocks (clientId cfg) (default [] blocks) false;
          updatePost cfg net (VStr "in") overridePostID overrideExpiry (VNum (index + 1))
        else mret tt
      else mret tt
  end.

(** ** Reading a trace *)

(** The child lists handed to [replaceInnerBlocks], oldest first. *)
Definition replaceCalls (t : list event) : list (list (option Block)) :=
  omap (λ e, match e with ReplaceInnerBlocks _ blocks _ => Some blocks | _ => None end) t.

(** The requests issued with a given HTTP method, oldest first. *)
Definition requestsBy (m : string) (t : list event) : list Request :=
  omap (λ e, match e with
             | ApiFetch r => if bool_decide (method r = m) then Some r else None
             | _ => None
             end) t.

(** The notices shown to the user. *)
Definition alerts (t : list event) : list string :=
  omap (λ e, match e with Alert msg => Some msg | _ => None end) t.

(** ** Vocabulary of the statements *)

(** The item carries the "updated" flag. *)
Definition flagged (b : Block) : Prop :=
  prop (attributes b) "postUpdated" = VBool true.

(** [b], at position [i], is the first flagged item of the child list [l]:
    the items before it are blocks that are not flagged. *)
Definition firstUpdated (l : list (option Block)) (i : nat) (b : Block) : Prop :=
  l !! i = Some (Some b) ∧ flagged b ∧
  ∀ j it, (j < i)%nat → l !! j = Some it → ∃ b', it = Some b' ∧ ¬ flagged b'.

(** The records of a response, none when the request failed or the answer
    was empty. *)
Definition records (resp : Response (option (list JsObject))) : list JsObject :=
  match resp with
  | Resolved (Some items) => items
  | _ => []
  end.

(** What the two handlers of the get-posts promise report. *)
Definition fetchReport (resp : Response (option (list JsObject))) : list event :=
  match resp with
  | Resolved payload => if hasLength payload then [] else [Alert notFoundMessage]
  | Rejected err => [ConsoleLog err]
  end.

(** What the two handlers of the update-posts promise report. *)
Definition ackReport (resp : Response jsval) : event :=
  match resp with
  | Resolved payload => ConsoleLog payload
  | Rejected err => ConsoleDir err
  end.

(** [b] with attribute [key] set to [v]. *)
Definition withAttribute (key : string) (v : jsval) (b : Block) : Block :=
  mkBlock (blockName b) (<[key := v]> (attributes b)).

(** The flagged item once the merge has cleared its flag and its rule. *)
Definition cleared (b : Block) : Block :=
  withAttribute "overrideRule" (VStr "") (withAttribute "postUpdated" (VBool false) b).

(** The child list after the merge spliced [inserted] behind item [i]. *)
Definition merged (l : list (option Block)) (i : nat) (b : Block)
    (inserted : option Block) : list (option Block) :=
  let l' := <[i := Some (cleared b)]> l in
  take (S i) l' ++ inserted :: drop (S i) l'.

(** ** Sample inputs *)

Definition sampleConfig : Config :=
  mkConfig "home" "top-stories" true false true true false "block-1".

(** The same block before its page name is filled in. *)
Definition unnamedConfig : Config :=
  mkConfig "" "top-stories" true false true true false "block-1".

Definition sampleRecord : JsObject :=
  list_to_map
    [ ("postLink"%string, VStr "https://example.org/a");
      ("post_title"%string, VStr "A");
      ("post_excerpt"%string, VStr "About A");
      ("postAuthor"%string, VStr "Ann");
      ("postDate"%string, VStr "May 1");
      ("postDateC"%string, VStr "2021-05-01");
      ("featuredImage"%string, VStr "https://example.org/a.png") ].

Definition otherRecord : JsObject :=
  list_to_map
    [ ("postLink"%string, VStr "https://example.org/b");
      ("post_title"%string, VStr "B");
      ("featuredImage"%string, VBool false) ].

(** A remote API that always answers with the given payload. *)
Definition answering (payload : option (list JsObject)) : Network :=
  mkNetwork (λ _, Resolved payload) (λ _, Resolved (VStr "ok")).

Definition plainItem : Block :=
  mkBlock "sophi/page-list-item"
    (list_to_map [ ("postUpdated"%string, VBool false); ("postTitle"%string, VStr "P") ]).

(** An item whose editor asked for post 7 to be inserted after it. *)
Definition insertingItem : Block :=
  mkBlock "sophi/page-list-item"
    (list_to_map
       [ ("postUpdated"%string, VBool true);
         ("postTitle"%string, VStr "Q");
         ("overrideRule"%string, VStr "in");
         ("overridePostID"%string, VNum 7);
         ("overrideExpiry"%string, VNum 60) ]).

(** An item that was updated without asking for an insertion. *)
Definition touchedItem : Block :=
  mkBlock "sophi/page-list-item"
    (list_to_map
       [ ("postUpdated"%string, VBool true);
         ("postTitle"%string, VStr "R");
         ("overrideRule"%string, VStr "") ]).

Definition sampleWorld : World :=
  mkWorld (Some [Some plainItem; Some insertingItem; Some plainItem]) [].

Definition touchedWorld : World :=
  mkWorld (Some [Some plainItem; Some touchedItem]) [].

Definition quietWorld : World :=
  mkWorld (Some [Some plainItem; Some plainItem]) [].

(** What a call of [getPosts] hands out: the items it returns and the items
    it passes to [replaceInnerBlocks]. *)
Definition handedOut (run : outcome (option (list Block)) * World) (before : World)
    : list (option Block) :=
  match run.1 with
  | Returned (Some items) => Some <$> items
  | _ => []
  end ++ concat (replaceCalls (drop (length (trace before)) (trace run.2))).

(** ** What a request path carries *)

(** [addQueryArgs(url, args)] of the host writes the properties of [args]
    into the query string of the path, one [key=value] pair each, in the
    order of the object; a property whose value is [undefined] is left out,
    and [null] is written as the empty string.  [sentQuery r] lists the
    pairs that the path of [r] carries; a value stands for its text, whose
    percent-encoding is not modelled. *)
Definition written (v : jsval) : jsval :=
  match v with
  | VNull => VStr ""
  | _ => v
  end.

Definition sentQuery (r : Request) : list (string * jsval) :=
  omap (λ kv : string * jsval,
          match kv.2 with
          | VUndefined => None
          | v => Some (kv.1, written v)
          end) (query r).

(** An item that asks for post 9 to be inserted and has no expiry. *)
Definition openEndedItem : Block :=
  mkBlock "sophi/page-list-item"
    (list_to_map
       [ ("postUpdated"%string, VBool true);
         ("overrideRule"%string, VStr "in");
         ("overridePostID"%string, VNum 9) ]).

(** ** Counting flags *)

(** The slot holds a flagged item ([undefined] slots hold none). *)
Definition isFlagged (it : option Block) : bool :=
  match it with
  | Some b => strict_eq (prop (attributes b) "postUpdated") (VBool true)
  | None => false
  end.

Definition flaggedCount (l : list (option Block)) : nat :=
  length (List.filter isFlagged l).

(** All requests of a trace, oldest first. *)
Definition requests (t : list event) : list Request :=
  omap (λ e, match e with ApiFetch r => Some r | _ => None end) t.

(** ** What the component renders *)

(** The one-attribute object an inspector control hands to [setAttributes]. *)
Inductive attributePatch : Type :=
| PatchPageName (value : string)
| PatchWidgetName (value : string)
| PatchDisplayPostExcept (value : bool)
| PatchDisplayAuthor (value : bool)
| PatchDisplayPostDate (value : bool)
| PatchDisplayFeaturedImage (value : bool)
| PatchAddLinkToFeaturedImage (value : bool).

(** [setAttributes(patch)]: the host merges the patch into the attributes
    of the block; the next render is given the result. *)
Definition setAttributes (patch : attributePatch) (cfg : Config) : Config :=
  match patch with
  | PatchPageName value =>
      mkConfig value (widgetName cfg) (displayPostExcept cfg) (displayAuthor cfg)
        (displayPostDate cfg) (displayFeaturedImage cfg) (addLinkToFeaturedImage cfg)
        (clientId cfg)
  | PatchWidgetName value =>
      mkConfig (pageName cfg) value (displayPostExcept cfg) (displayAuthor cfg)
        (displayPostDate cfg) (displayFeaturedImage cfg) (addLinkToFeaturedImage cfg)
        (clientId cfg)
  | PatchDisplayPostExcept value =>
      mkConfig (pageName cfg) (widgetName cfg) value (displayAuthor cfg)
        (displayPostDate cfg) (displayFeaturedImage cfg) (addLinkToFeaturedImage cfg)
        (clientId cfg)
  | PatchDisplayAuthor value =>
      mkConfig (pageName cfg) (widgetName cfg) (displayPostExcept cfg) value
        (displayPostDate cfg) (displayFeaturedImage cfg) (addLinkToFeaturedImage cfg)
        (clientId cfg)
  | PatchDisplayPostDate value =>
      mkConfig (pageName cfg) (widgetName cfg) (displayPostExcept cfg) (displayAuthor cfg)
        value (displayFeaturedImage cfg) (addLinkToFeaturedImage cfg) (clientId cfg)
  | PatchDisplayFeaturedImage value =>
      mkConfig (pageName cfg) (widgetName cfg) (displayPostExcept cfg) (displayAuthor cfg)
        (displayPostDate cfg) value (addLinkToFeaturedImage cfg) (clientId cfg)
  | PatchAddLinkToFeaturedImage value =>
      mkConfig (pageName cfg) (widgetName cfg) (displayPostExcept cfg) (displayAuthor cfg)
        (displayPostDate cfg) (displayFeaturedImage cfg) value (clientId cfg)
  end.

(** A control of the inspector: what it shows and what its [onChange]
    handler passes to [setAttributes]. *)
Inductive control : Type :=
| TextControl (label value : string) (onChange : string → attributePatch)
| ToggleControl (label : string) (checked : bool) (onChange : bool → attributePatch).

Record PanelBody : Type := mkPanelBody {
  title : string;
  controls : list control
}.

(** The children of the outer [div] below the inspector.  The inner-blocks
    area is the [div] as written: its [className], [id] and
    [data-sophi-feature] props, then the spread of [blockProps] (the result
    of [useBlockProps()], whose properties replace the written ones of the
    same name), around the [InnerBlocks] element. *)
Inductive element : Type :=
| Placeholder (label text : string)
| ServerSideRender (block : string) (attrs : list (string * jsval))
| InnerBlocksArea (className id feature : string) (blockProps : JsObject)
    (allowedBlocks : list string) (templateLock : string) (template : list string).

(** [a && b]. *)
Definition jsAnd (a b : jsval) : jsval := if truthy a then b else a.

(** [{cond && <X />}]: the element when the condition is truthy. *)
Definition renderWhen (cond : jsval) (e : element) : list element :=
  if truthy cond then [e] else [].

Definition ALLOWED_BLOCKS : list string := ["sophi/page-list-item"%string].

(** The four panels inside [InspectorControls]. *)
Definition inspectorControls (cfg : Config) : list PanelBody :=
  [ mkPanelBody "Site Automation settings"
      [ TextControl "Page name" (pageName cfg) PatchPageName;
        TextControl "Widget name" (widgetName cfg) PatchWidgetName ];
    mkPanelBody "Post content settings"
      [ ToggleControl "Post excerpt" (displayPostExcept cfg) PatchDisplayPostExcept ];
    mkPanelBody "Post meta settings"
      [ ToggleControl "Display author name" (displayAuthor cfg) PatchDisplayAuthor;
        ToggleControl "Display post date" (displayPostDate cfg) PatchDisplayPostDate ];
    mkPanelBody "Featured image settings"
      (ToggleControl "Display featured image" (displayFeaturedImage cfg)
         PatchDisplayFeaturedImage ::
       (if displayFeaturedImage cfg
        then [ ToggleControl "Add link to featured image" (addLinkToFeaturedImage cfg)
                 PatchAddLinkToFeaturedImage ]
        else [])) ].

(** The three conditional children that follow the inspector. *)
Definition renderBody (blockProps : JsObject) (cfg : Config) : list element :=
  let named := jsAnd (VStr (pageName cfg)) (VStr (widgetName cfg)) in
  renderWhen (VBool (negb (truthy named)))
    (Placeholder "Sophi.io Site Automation"
       "Please set page and widget name for this Site Automation block on the sidebar settings.")
  ++ renderWhen named
    (ServerSideRender "sophi/site-automation-block"
       [ ("pageName"%string, VStr (pageName cfg));
         ("widgetName"%string, VStr (widgetName cfg));
         ("displayPostExcept"%string, VBool (displayPostExcept cfg));
         ("displayAuthor"%string, VBool (displayAuthor cfg));
         ("displayPostDate"%string, VBool (displayPostDate cfg));
         ("displayFeaturedImage"%string, VBool (displayFeaturedImage cfg));
         ("addLinkToFeaturedImage"%string, VBool (addLinkToFeaturedImage cfg)) ])
  ++ renderWhen named
    (InnerBlocksArea "sophi-site-automation-block"
       ("sophi-" +:+ pageName cfg +:+ "-" +:+ widgetName cfg) (widgetName cfg)
       blockProps ALLOWED_BLOCKS "all" ["sophi/page-list-item"%string]).

(** ** Reading a view *)

Definition controlLabel (c : control) : string :=
  match c with
  | TextControl label _ _ => label
  | ToggleControl label _ _ => label
  end.

(** What a control displays. *)
Definition controlValue (c : control) : jsval :=
  match c with
  | TextControl _ value _ => VStr value
  | ToggleControl _ checked _ => VBool checked
  end.

(** The controls of all panels, top to bottom. *)
Definition allControls (cfg : Config) : list control :=
  concat (controls <$> inspectorControls cfg).

(** What the control of a given label displays, if the inspector has one. *)
Definition shown (label : string) (cs : list control) : option jsval :=
  (λ p, controlValue p.2) <$> list_find (λ c, controlLabel c = label) cs.

(** After [patch] has been applied, the control labelled [label] displays
    [value]; every other control of the old view displays in the new view
    what it displayed, unless it is the "Add link to featured image" toggle
    hidden by switching "Display featured image" off; and every other
    control of the new view displayed the same in the old view, unless it is
    that toggle brought up by switching "Display featured image" on. *)
Definition rebinds (cfg : Config) (label : string) (patch : attributePatch)
    (value : jsval) : Prop :=
  let old := allControls cfg in
  let new := allControls (setAttributes patch cfg) in
  shown label new = Some value ∧
  (∀ c', c' ∈ old → controlLabel c' ≠ label →
     shown (controlLabel c') new = Some (controlValue c') ∨
     (shown (controlLabel c') new = None ∧
      controlLabel c' = "Add link to featured image"%string ∧
      label = "Display featured image"%string ∧ value = VBool false)) ∧
  (∀ c', c' ∈ new → controlLabel c' ≠ label →
     shown (controlLabel c') old = Some (controlValue c') ∨
     (shown (controlLabel c') old = None ∧
      controlLabel c' = "Add link to featured image"%string ∧
      label = "Display featured image"%string ∧ value = VBool true)).

Definition isPlaceholder (e : element) : bool :=
  match e with Placeholder _ _ => true | _ => false end.

Definition isInnerBlocksArea (e : element) : bool :=
  match e with InnerBlocksArea _ _ _ _ _ _ _ => true | _ => false end.

Definition isServerSideRender (e : element) : bool :=
  match e with ServerSideRender _ _ => true | _ => false end.

(** ** Basic facts *)

Lemma replaceCalls_app t1 t2 : replaceCalls (t1 ++ t2) = replaceCalls t1 ++ replaceCalls t2.
Proof. unfold replaceCalls. apply omap_app. Qed.

Lemma replaceCalls_fetchReport resp : replaceCalls (fetchReport resp) = [].
Proof. by destruct resp as [[[|??]|]|?]. Qed.


Lemma strict_eq_true a b : strict_eq a b = true ↔ a = b.
Proof. unfold strict_eq. apply bool_decide_eq_true. Qed.

Lemma strict_eq_false a b : strict_eq a b = false ↔ a ≠ b.
Proof. unfold strict_eq. apply bool_decide_eq_false. Qed.

Lemma isPostUpdated_flagged b : isPostUpdated (Some b) = Returned true ↔ flagged b.
Proof.
  unfold isPostUpdated, flagged. split.
  - intros H. injection H as H. by apply strict_eq_true.
  - intros H. f_equal. by apply strict_eq_true.
Qed.

Lemma isPostUpdated_not_flagged b : ¬ flagged b → isPostUpdated (Some b) = Returned false.
Proof.
  unfold isPostUpdated, flagged. intros H. f_equal. by apply strict_eq_false.
Qed.

Lemma prop_withAttribute_eq key v b : prop (attributes (withAttribute key v b)) key = v.
Proof. unfold prop, withAttribute. simpl. by rewrite lookup_insert_eq. Qed.

Lemma prop_withAttribute_ne key key' v b :
  key ≠ key' → prop (attributes (withAttribute key v b)) key' = prop (attributes b) key'.
Proof. intros H. unfold prop, withAttribute. simpl. by rewrite lookup_insert_ne. Qed.

Lemma array_get_nat {A} (l : list (option A)) (i : nat) x :
  l !! i = Some (Some x) → array_get l (Z.of_nat i) = Some x.
Proof.
  intros H. unfold array_get. rewrite bool_decide_eq_true_2 by lia.
  by rewrite Nat2Z.id, H.
Qed.

Lemma splice_insert_after {A} (l : list A) (i : nat) x :
  (i < length l)%nat →
  splice_insert l (Z.of_nat i + 1) x = take (S i) l ++ x :: drop (S i) l.
Proof.
  intros H. unfold splice_insert.
  rewrite bool_decide_eq_false_2 by lia.
  replace (Z.to_nat (Z.min (Z.of_nat i + 1) (Z.of_nat (length l)))) with (S i) by lia.
  done.
Qed.

Lemma splice_insert_length {A} (l : list A) start x :
  length (splice_insert l start x) = S (length l).
Proof.
  unfold splice_insert. rewrite length_app. simpl.
  rewrite length_take, length_drop. lia.
Qed.

(** [findIndex] stops at the first flagged item. *)
Lemma findIndex_from_firstUpdated l i b k :
  firstUpdated l i b → findIndex_from isPostUpdated l k = Returned (k + Z.of_nat i).
Proof.
  revert i k. induction l as [|x l IH]; intros i k (Hi & Hf & Hbefore).
  - done.
  - destruct i as [|i]; simpl in *.
    + injection Hi as ->. apply isPostUpdated_flagged in Hf. rewrite Hf.
      f_equal. lia.
    + destruct (Hbefore 0%nat x) as (b' & -> & Hnf); [lia | done |].
      rewrite (isPostUpdated_not_flagged _ Hnf).
      rewrite (IH i (k + 1)).
      * f_equal. lia.
      * repeat split; [done | done |].
        intros j it Hj Hit. apply (Hbefore (S j) it); [lia | done].
Qed.

Lemma findIndex_firstUpdated l i b :
  firstUpdated l i b → findIndex isPostUpdated l = Returned (Z.of_nat i).
Proof. intros H. unfold findIndex. by rewrite (findIndex_from_firstUpdated l i b 0). Qed.

(** [findIndex] finds nothing in a list of unflagged blocks. *)
Lemma findIndex_from_none l k :
  (∀ it, it ∈ l → ∃ b, it = Some b ∧ ¬ flagged b) →
  findIndex_from isPostUpdated l k = Returned (-1).
Proof.
  revert k. induction l as [|x l IH]; intros k H; [done|].
  simpl. destruct (H x) as (b & -> & Hnf); [by left|].
  rewrite (isPostUpdated_not_flagged _ Hnf). apply IH.
  intros it Hit. apply H. by right.
Qed.

(** Conversely, an answer of [-1] means every item is an unflagged block. *)
Lemma findIndex_from_minus_one l k :
  0 <= k → findIndex_from isPostUpdated l k = Returned (-1) →
  ∀ it, it ∈ l → ∃ b, it = Some b ∧ ¬ flagged b.
Proof.
  revert k. induction l as [|x l IH]; intros k Hk H it Hit.
  - by apply elem_of_nil in Hit.
  - simpl in H. destruct x as [b|]; [|done].
    destruct (isPostUpdated (Some b)) as [[|]|] eqn:E; [injection H; lia | | done].
    apply elem_of_cons in Hit as [-> | Hit].
    + exists b. split; [done|]. intros Hf. apply isPostUpdated_flagged in Hf. congruence.
    + apply (IH (k + 1)); [lia | done | done].
Qed.

(** ** Running the routines *)

Lemma bind_run {A B} (m : M A) (f : A → M B) w :
  (m ≫= f) w =
  match m w with
  | (Returned a, w') => f a w'
  | (Threw e, w') => (Threw e, w')
  end.
Proof. done. Qed.

(** Unfold the monad and the host calls down to functions on worlds. *)
Ltac run_M :=
  unfold apiFetch, alert, console_log, console_dir, replaceInnerBlocks, emit,
    readInnerBlocks, writeInnerBlocks, throw, liftO, mbind, M_bind, mret, M_ret;
  simpl.

(** With both names set, [getPosts] issues its request, reports through the
    handlers, and then either returns the items (an override post ID was
    given) or replaces the child list with them. *)
Lemma getPosts_run cfg net arg w :
  pageName cfg ≠ ""%string → widgetName cfg ≠ ""%string →
  let overridePostID := default_param arg (VStr "") in
  let req := getPostsRequest cfg overridePostID in
  let resp := get_posts net req in
  let items := listItem cfg <$> records resp in
  getPosts cfg net arg w =
    if strict_eq overridePostID (VStr "")
    then (Returned None,
          mkWorld (innerBlocks w)
            (trace w ++ [ApiFetch req] ++ fetchReport resp ++
               [ReplaceInnerBlocks (clientId cfg) (Some <$> items) false]))
    else (Returned (Some items),
          mkWorld (innerBlocks w) (trace w ++ [ApiFetch req] ++ fetchReport resp)).
Proof.
  intros Hp Hw. simpl. unfold getPosts.
  rewrite (bool_decide_eq_false_2 _ Hp), (bool_decide_eq_false_2 _ Hw). simpl.
  run_M.
  destruct (get_posts net _) as [[[|r rs]|]|err]; simpl;
    destruct (strict_eq _ _); simpl; rewrite <- ?(assoc_L (++)); done.
Qed.

(** Without a page name or a widget name, [getPosts] does nothing. *)
Lemma getPosts_unconfigured cfg net arg w :
  pageName cfg = ""%string ∨ widgetName cfg = ""%string →
  getPosts cfg net arg w = (Returned None, w).
Proof.
  intros H. unfold getPosts.
  destruct H as [H|H]; rewrite (bool_decide_eq_true_2 _ H); [done|].
  by rewrite orb_true_r.
Qed.

Lemma updatePost_run cfg net ruleType overridePostID overrideExpiry position w :
  let req := updatePostRequest cfg ruleType overridePostID overrideExpiry position in
  updatePost cfg net ruleType overridePostID overrideExpiry position w =
    (Returned tt,
     mkWorld (innerBlocks w) (trace w ++ [ApiFetch req; ackReport (update_posts net req)])).
Proof.
  simpl. unfold updatePost. run_M.
  destruct (update_posts net _); simpl; by rewrite <- (assoc_L (++)).
Qed.

Lemma readAttribute_run key w l i b :
  innerBlocks w = Some l → l !! i = Some (Some b) →
  readAttribute (Z.of_nat i) key w = (Returned (prop (attributes b) key), w).
Proof.
  intros Hl Hi. unfold readAttribute. run_M.
  by rewrite Hl; simpl; rewrite (array_get_nat l i b Hi).
Qed.

Lemma writeAttribute_run key v w l i b :
  innerBlocks w = Some l → l !! i = Some (Some b) →
  writeAttribute (Z.of_nat i) key v w =
    (Returned tt, mkWorld (Some (<[i := Some (withAttribute key v b)]> l)) (trace w)).
Proof.
  intros Hl Hi. unfold writeAttribute. run_M.
  by rewrite Hl; simpl; rewrite (array_get_nat l i b Hi), Nat2Z.id.
Qed.

(** When the first flagged item asks for an insertion, the merge clears its
    flag and its rule in place and goes on to the fetch. *)
Lemma updateInnerBlocks_in cfg net w l i b :
  innerBlocks w = Some l → firstUpdated l i b →
  prop (attributes b) "overrideRule" = VStr "in" →
  let overridePostID := prop (attributes b) "overridePostID" in
  let overrideExpiry := prop (attributes b) "overrideExpiry" in
  updateInnerBlocks cfg net w =
    (newInnerBlocks ← getPosts cfg net overridePostID;
     inserted ← firstOf newInnerBlocks;
     _ ← spliceInnerBlocks (Z.of_nat i + 1) inserted;
     blocks ← readInnerBlocks;
     _ ← replaceInnerBlocks (clientId cfg) (default [] blocks) false;
     updatePost cfg net (VStr "in") overridePostID overrideExpiry (VNum (Z.of_nat i + 1)))
      (mkWorld (Some (<[i := Some (cleared b)]> l)) (trace w)).
Proof.
  intros Hl Hfirst Hrule. simpl.
  pose proof Hfirst as (Hi & _ & _).
  assert (i < length l)%nat as Hlen by (by eapply lookup_lt_Some).
  unfold updateInnerBlocks.
  rewrite bind_run. unfold readInnerBlocks at 1. rewrite Hl.
  rewrite bind_run. unfold liftO. rewrite (findIndex_firstUpdated l i b Hfirst).
  rewrite bool_decide_eq_true_2 by lia.
  rewrite bind_run, (writeAttribute_run _ _ w l i b Hl Hi).
  set (b1 := withAttribute "postUpdated" (VBool false) b).
  set (w1 := mkWorld (Some (<[i := Some b1]> l)) (trace w)).
  assert (<[i := Some b1]> l !! i = Some (Some b1)) as Hi1
    by (by apply list_lookup_insert_eq).
  rewrite bind_run, (readAttribute_run _ w1 _ i b1 eq_refl Hi1).
  unfold b1 at 1. rewrite prop_withAttribute_ne by done. rewrite Hrule. simpl.
  rewrite bind_run, (writeAttribute_run _ _ w1 _ i b1 eq_refl Hi1).
  rewrite list_insert_insert_eq. fold (cleared b). simpl.
  set (w2 := mkWorld (Some (<[i := Some (cleared b)]> l)) (trace w)).
  assert (<[i := Some (cleared b)]> l !! i = Some (Some (cleared b))) as Hi2
    by (by apply list_lookup_insert_eq).
  rewrite bind_run, (readAttribute_run _ w2 _ i (cleared b) eq_refl Hi2).
  rewrite bind_run, (readAttribute_run _ w2 _ i (cleared b) eq_refl Hi2).
  unfold cleared. rewrite !prop_withAttribute_ne by done.
  done.
Qed.

(** When it asks for anything else, only its flag is cleared. *)
Lemma updateInnerBlocks_other cfg net w l i b :
  innerBlocks w = Some l → firstUpdated l i b →
  prop (attributes b) "overrideRule" ≠ VStr "in" →
  updateInnerBlocks cfg net w =
    (Returned tt,
     mkWorld (Some (<[i := Some (withAttribute "postUpdated" (VBool false) b)]> l)) (trace w)).
Proof.
  intros Hl Hfirst Hrule.
  pose proof Hfirst as (Hi & _ & _).
  unfold updateInnerBlocks.
  rewrite bind_run. unfold readInnerBlocks at 1. rewrite Hl.
  rewrite bind_run. unfold liftO. rewrite (findIndex_firstUpdated l i b Hfirst).
  rewrite bool_decide_eq_true_2 by lia.
  rewrite bind_run, (writeAttribute_run _ _ w l i b Hl Hi).
  set (b1 := withAttribute "postUpdated" (VBool false) b).
  set (w1 := mkWorld (Some (<[i := Some b1]> l)) (trace w)).
  assert (<[i := Some b1]> l !! i = Some (Some b1)) as Hi1.
  { apply list_lookup_insert_eq. by eapply lookup_lt_Some. }
  rewrite bind_run, (readAttribute_run _ w1 _ i b1 eq_refl Hi1).
  unfold b1 at 1. rewrite prop_withAttribute_ne by done.
  apply strict_eq_false in Hrule. by rewrite Hrule.
Qed.

Lemma default_param_defined arg d : arg ≠ VUndefined → default_param arg d = arg.
Proof. by destruct arg. Qed.

(** The complete run of the merge when the fetch goes through peek mode. *)
Lemma updateInnerBlocks_insert cfg net w l i b :
  innerBlocks w = Some l → firstUpdated l i b →
  prop (attributes b) "overrideRule" = VStr "in" →
  pageName cfg ≠ ""%string → widgetName cfg ≠ ""%string →
  let overridePostID := prop (attributes b) "overridePostID" in
  let overrideExpiry := prop (attributes b) "overrideExpiry" in
  overridePostID ≠ VUndefined → overridePostID ≠ VStr "" →
  let fetch := getPostsRequest cfg overridePostID in
  let resp := get_posts net fetch in
  let l' := merged l i b (head (listItem cfg <$> records resp)) in
  let report :=
    updatePostRequest cfg (VStr "in") overridePostID overrideExpiry (VNum (Z.of_nat i + 1)) in
  updateInnerBlocks cfg net w =
    (Returned tt,
     mkWorld (Some l')
       (trace w ++ [ApiFetch fetch] ++ fetchReport resp ++
          [ReplaceInnerBlocks (clientId cfg) l' false;
           ApiFetch report; ackReport (update_posts net report)])).
Proof.
  intros Hl Hfirst Hrule Hp Hw oid oexp Hdef Hpeek. simpl.
  rewrite (updateInnerBlocks_in cfg net w l i b Hl Hfirst Hrule). simpl.
  fold oid oexp.
  assert (i < length l)%nat as Hlen by (destruct Hfirst as (Hi & _); by eapply lookup_lt_Some).
  rewrite bind_run, (getPosts_run cfg net oid _ Hp Hw). simpl.
  rewrite (default_param_defined _ _ Hdef).
  apply strict_eq_false in Hpeek. rewrite Hpeek.
  unfold firstOf, spliceInnerBlocks. run_M.
  rewrite splice_insert_after by (by rewrite length_insert).
  rewrite updatePost_run. simpl. fold oid oexp. unfold merged.
  do 2 f_equal. rewrite <- !(assoc_L (++)). done.
Qed.

(** Without a page or widget name the fetch returns [undefined], and reading
    its element 0 throws. *)
Lemma updateInnerBlocks_unconfigured cfg net w l i b :
  innerBlocks w = Some l → firstUpdated l i b →
  prop (attributes b) "overrideRule" = VStr "in" →
  pageName cfg = ""%string ∨ widgetName cfg = ""%string →
  updateInnerBlocks cfg net w =
    (Threw TypeError, mkWorld (Some (<[i := Some (cleared b)]> l)) (trace w)).
Proof.
  intros Hl Hfirst Hrule Hcfg.
  rewrite (updateInnerBlocks_in cfg net w l i b Hl Hfirst Hrule). simpl.
  by rewrite bind_run, (getPosts_unconfigured cfg net _ _ Hcfg).
Qed.

(** When the flagged item carries no override post ID ([undefined] or the
    empty string), the fetch runs as a plain call: it replaces the child
    list with what it fetched and returns [undefined], and reading element 0
    throws. *)
Lemma updateInnerBlocks_plain_fetch cfg net w l i b :
  innerBlocks w = Some l → firstUpdated l i b →
  prop (attributes b) "overrideRule" = VStr "in" →
  pageName cfg ≠ ""%string → widgetName cfg ≠ ""%string →
  default_param (prop (attributes b) "overridePostID") (VStr "") = VStr "" →
  let fetch := getPostsRequest cfg (VStr "") in
  let resp := get_posts net fetch in
  updateInnerBlocks cfg net w =
    (Threw TypeError,
     mkWorld (Some (<[i := Some (cleared b)]> l))
       (trace w ++ [ApiFetch fetch] ++ fetchReport resp ++
          [ReplaceInnerBlocks (clientId cfg) (Some <$> (listItem cfg <$> records resp))
             false])).
Proof.
  intros Hl Hfirst Hrule Hp Hw Hplain. simpl.
  rewrite (updateInnerBlocks_in cfg net w l i b Hl Hfirst Hrule). simpl.
  rewrite bind_run, (getPosts_run cfg net _ _ Hp Hw). simpl.
  by rewrite Hplain.
Qed.

(** ** The attributes of a built item, one by one *)

Section ListItem.
Variables (cfg : Config) (item : JsObject).

Lemma listItem_postUpdated :
  prop (attributes (listItem cfg item)) "postUpdated" = VBool false.
Proof. reflexivity. Qed.

Lemma listItem_postLink :
  prop (attributes (listItem cfg item)) "postLink" = prop item "postLink".
Proof. reflexivity. Qed.

Lemma listItem_postTitle :
  prop (attributes (listItem cfg item)) "postTitle" = prop item "post_title".
Proof. reflexivity. Qed.

Lemma listItem_postExcept :
  prop (attributes (listItem cfg item)) "postExcept" =
    if displayPostExcept cfg then prop item "post_excerpt" else VStr "".
Proof. reflexivity. Qed.

Lemma listItem_featuredImage :
  prop (attributes (listItem cfg item)) "featuredImage" =
    if displayFeaturedImage cfg && truthy (prop item "featuredImage")
    then prop item "featuredImage" else VStr "".
Proof. reflexivity. Qed.

Lemma listItem_postAuthor :
  prop (attributes (listItem cfg item)) "postAuthor" =
    if displayAuthor cfg then prop item "postAuthor" else VStr "".
Proof. reflexivity. Qed.

Lemma listItem_postDate :
  prop (attributes (listItem cfg item)) "postDate" =
    if displayPostDate cfg then prop item "postDate" else VStr "".
Proof. reflexivity. Qed.

Lemma listItem_postDateC :
  prop (attributes (listItem cfg item)) "postDateC" =
    if displayPostDate cfg then prop item "postDateC" else VStr "".
Proof. reflexivity. Qed.
End ListItem.

(** * List population *)

(** C2: when the get-posts endpoint answers with a non-empty array, the
    routine builds exactly one list item per record, in order: as many items
    as records, each a page-list-item whose link and title are the record's,
    and whose excerpt, author, dates and featured image are the record's
    when the matching toggle is on.  With an override post ID the items are
    returned, without one they replace the child list. *)
Theorem getPosts_one_item_per_record cfg net arg w payload :
  pageName cfg ≠ ""%string → widgetName cfg ≠ ""%string →
  let overridePostID := default_param arg (VStr "") in
  let req := getPostsRequest cfg overridePostID in
  get_posts net req = Resolved (Some payload) → payload ≠ [] →
  ∃ items : list Block,
    length items = length payload ∧
    (∀ k record, payload !! k = Some record →
       ∃ b, items !! k = Some b ∧
         blockName b = "sophi/page-list-item"%string ∧
         prop (attributes b) "postLink" = prop record "postLink" ∧
         prop (attributes b) "postTitle" = prop record "post_title" ∧
         (displayPostExcept cfg = true →
            prop (attributes b) "postExcept" = prop record "post_excerpt") ∧
         (displayAuthor cfg = true →
            prop (attributes b) "postAuthor" = prop record "postAuthor") ∧
         (displayPostDate cfg = true →
            prop (attributes b) "postDate" = prop record "postDate" ∧
            prop (attributes b) "postDateC" = prop record "postDateC") ∧
         (displayFeaturedImage cfg = true → truthy (prop record "featuredImage") = true →
            prop (attributes b) "featuredImage" = prop record "featuredImage")) ∧
    (overridePostID ≠ VStr "" →
       getPosts cfg net arg w =
         (Returned (Some items), mkWorld (innerBlocks w) (trace w ++ [ApiFetch req]))) ∧
    (overridePostID = VStr "" →
       getPosts cfg net arg w =
         (Returned None,
          mkWorld (innerBlocks w)
            (trace w ++ [ApiFetch req;
                         ReplaceInnerBlocks (clientId cfg) (Some <$> items) false]))).
Proof.
  intros Hp Hw oid req Hresp Hne.
  exists (listItem cfg <$> payload).
  split; [by rewrite length_fmap|]. split.
  - intros k record Hk. exists (listItem cfg record).
    split; [by rewrite list_lookup_fmap, Hk|].
    split; [done|].
    rewrite listItem_postLink, listItem_postTitle, listItem_postExcept,
      listItem_postAuthor, listItem_postDate, listItem_postDateC,
      listItem_featuredImage.
    split; [done|]. split; [done|].
    split; [by intros ->|]. split; [by intros ->|]. split; [by intros ->|].
    by intros -> ->.
  - pose proof (getPosts_run cfg net arg w Hp Hw) as Hrun. simpl in Hrun.
    fold oid req in Hrun. rewrite Hresp in Hrun. simpl in Hrun.
    destruct payload as [|r rs]; [done|]. simpl in Hrun.
    split; intros Hmode.
    + apply strict_eq_false in Hmode. by rewrite Hmode in Hrun.
    + apply strict_eq_true in Hmode. by rewrite Hmode in Hrun.
Qed.

Lemma getPosts_one_item_per_record_witness :
  ∃ items : list Block,
    length items = 2%nat ∧
    getPosts sampleConfig (answering (Some [sampleRecord; otherRecord])) VUndefined
      sampleWorld =
      (Returned None,
       mkWorld (innerBlocks sampleWorld)
         [ApiFetch (getPostsRequest sampleConfig (VStr ""));
          ReplaceInnerBlocks "block-1" (Some <$> items) false]).
Proof.
  destruct (getPosts_one_item_per_record sampleConfig
              (answering (Some [sampleRecord; otherRecord])) VUndefined sampleWorld
              [sampleRecord; otherRecord])
    as (items & Hlen & _ & _ & Hrun); [done | done | reflexivity | done |].
  exists items. split; [exact Hlen | exact (Hrun eq_refl)].
Defined.

(** C3, as amended: when the get-posts endpoint answers with an empty array,
    the "not found" notice is raised; with an override post ID the routine
    returns the empty array and makes no child-replacement call, and without
    one it replaces the child list with the empty list. *)
Theorem getPosts_empty_response cfg net arg w :
  pageName cfg ≠ ""%string → widgetName cfg ≠ ""%string →
  let overridePostID := default_param arg (VStr "") in
  let req := getPostsRequest cfg overridePostID in
  get_posts net req = Resolved (Some []) →
  (overridePostID ≠ VStr "" →
     getPosts cfg net arg w =
       (Returned (Some []),
        mkWorld (innerBlocks w) (trace w ++ [ApiFetch req; Alert notFoundMessage]))) ∧
  (overridePostID = VStr "" →
     getPosts cfg net arg w =
       (Returned None,
        mkWorld (innerBlocks w)
          (trace w ++ [ApiFetch req; Alert notFoundMessage;
                       ReplaceInnerBlocks (clientId cfg) [] false]))).
Proof.
  intros Hp Hw oid req Hresp.
  pose proof (getPosts_run cfg net arg w Hp Hw) as Hrun. simpl in Hrun.
  fold oid req in Hrun. rewrite Hresp in Hrun. simpl in Hrun.
  split; intros Hmode.
  - apply strict_eq_false in Hmode. by rewrite Hmode in Hrun.
  - apply strict_eq_true in Hmode. by rewrite Hmode in Hrun.
Qed.

Lemma getPosts_empty_response_witness :
  getPosts sampleConfig (answering (Some [])) (VNum 7) quietWorld =
    (Returned (Some []),
     mkWorld (innerBlocks quietWorld)
       [ApiFetch (getPostsRequest sampleConfig (VNum 7)); Alert notFoundMessage]).
Proof.
  refine (proj1 (getPosts_empty_response sampleConfig (answering (Some [])) (VNum 7)
                   quietWorld _ _ _) _); [done | done | reflexivity | done].
Defined.

(** C3, as stated, fails: on an empty answer to the plain call (no override
    post ID) the notice is raised and [replaceInnerBlocks] is called all the
    same, with the empty list. *)
Lemma getPosts_empty_response_replaces :
  let run := getPosts sampleConfig (answering (Some [])) VUndefined sampleWorld in
  get_posts (answering (Some [])) (getPostsRequest sampleConfig (VStr "")) = Resolved (Some [])
  ∧ alerts (trace run.2) = [notFoundMessage]
  ∧ replaceCalls (trace run.2) = [[]].
Proof. by vm_compute. Qed.

(** C4: in every item the routine hands out, a display field (excerpt,
    author, the two dates, featured image) whose toggle is off is the empty
    string; so a field that is not the empty string has its toggle on. *)
Theorem display_fields_follow_toggles cfg net arg w b :
  Some b ∈ handedOut (getPosts cfg net arg w) w →
  (displayPostExcept cfg = false → prop (attributes b) "postExcept" = VStr "") ∧
  (displayAuthor cfg = false → prop (attributes b) "postAuthor" = VStr "") ∧
  (displayPostDate cfg = false →
     prop (attributes b) "postDate" = VStr "" ∧ prop (attributes b) "postDateC" = VStr "") ∧
  (displayFeaturedImage cfg = false → prop (attributes b) "featuredImage" = VStr "") ∧
  (prop (attributes b) "postExcept" ≠ VStr "" → displayPostExcept cfg = true) ∧
  (prop (attributes b) "postAuthor" ≠ VStr "" → displayAuthor cfg = true) ∧
  (prop (attributes b) "postDate" ≠ VStr "" ∨ prop (attributes b) "postDateC" ≠ VStr "" →
     displayPostDate cfg = true) ∧
  (prop (attributes b) "featuredImage" ≠ VStr "" → displayFeaturedImage cfg = true).
Proof.
  intros Hb.
  assert (∃ item, b = listItem cfg item) as [item ->].
  { unfold handedOut in Hb.
    destruct (decide (pageName cfg = ""%string ∨ widgetName cfg = ""%string)) as [Hcfg|Hcfg].
    - rewrite (getPosts_unconfigured cfg net arg w Hcfg) in Hb. simpl in Hb.
      rewrite drop_all in Hb. by apply elem_of_nil in Hb.
    - assert (pageName cfg ≠ ""%string ∧ widgetName cfg ≠ ""%string) as [Hp Hw]
        by (split; intros ?; apply Hcfg; auto).
      rewrite (getPosts_run cfg net arg w Hp Hw) in Hb.
      destruct (strict_eq _ _); cbn [fst snd trace] in Hb;
        rewrite drop_app_length, !replaceCalls_app, replaceCalls_fetchReport in Hb;
        simpl in Hb; rewrite ?app_nil_r in Hb;
        apply list_elem_of_fmap in Hb as (b' & [= ->] & Hin);
        apply list_elem_of_fmap in Hin as (item & -> & _); by exists item. }
  rewrite listItem_postExcept, listItem_postAuthor, listItem_postDate,
    listItem_postDateC, listItem_featuredImage.
  destruct (displayPostExcept cfg), (displayAuthor cfg), (displayPostDate cfg),
    (displayFeaturedImage cfg); simpl; intuition congruence.
Qed.

Lemma display_fields_follow_toggles_witness :
  prop (attributes (listItem sampleConfig sampleRecord)) "postAuthor" = VStr "".
Proof.
  refine (proj1 (proj2 (display_fields_follow_toggles sampleConfig
                          (answering (Some [sampleRecord])) (VNum 7) quietWorld
                          (listItem sampleConfig sampleRecord) _)) _).
  - vm_compute. apply list_elem_of_here.
  - reflexivity.
Defined.

(** C6, as amended: called with an override post ID (neither [undefined] nor
    the empty string) on a block whose page and widget names are set, the
    routine returns the array of the items it built, one per record of the
    answer, and calls [replaceInnerBlocks] not at all; the captured child
    list is as it was. *)
Theorem getPosts_peek_returns_items cfg net arg w :
  pageName cfg ≠ ""%string → widgetName cfg ≠ ""%string →
  arg ≠ VUndefined → arg ≠ VStr "" →
  ∃ calls,
    getPosts cfg net arg w =
      (Returned (Some (listItem cfg <$> records (get_posts net (getPostsRequest cfg arg)))),
       mkWorld (innerBlocks w) (trace w ++ calls)) ∧
    replaceCalls calls = [].
Proof.
  intros Hp Hw Hdef Hpeek.
  pose proof (getPosts_run cfg net arg w Hp Hw) as Hrun. simpl in Hrun.
  rewrite (default_param_defined _ _ Hdef) in Hrun.
  apply strict_eq_false in Hpeek. rewrite Hpeek in Hrun.
  eexists. split; [exact Hrun|].
  change (replaceCalls ([ApiFetch (getPostsRequest cfg arg)] ++
            fetchReport (get_posts net (getPostsRequest cfg arg))) = []).
  by rewrite replaceCalls_app, replaceCalls_fetchReport.
Qed.

Lemma getPosts_peek_returns_items_witness :
  ∃ calls,
    getPosts sampleConfig (answering (Some [otherRecord])) (VNum 7) sampleWorld =
      (Returned (Some [listItem sampleConfig otherRecord]),
       mkWorld (innerBlocks sampleWorld) calls) ∧
    replaceCalls calls = [].
Proof.
  exact (getPosts_peek_returns_items sampleConfig (answering (Some [otherRecord])) (VNum 7)
           sampleWorld ltac:(done) ltac:(done) ltac:(done) ltac:(done)).
Defined.

(** C6, as stated, fails: with an override post ID but no page name the
    routine returns [undefined], not an item array. *)
Lemma getPosts_peek_unnamed_returns_undefined :
  getPosts unnamedConfig (answering (Some [sampleRecord])) (VNum 7) sampleWorld =
    (Returned None, sampleWorld).
Proof. reflexivity. Qed.

(** C9: when the page name or the widget name is the empty string, the
    routine returns at once: the world is untouched (no request, no
    replacement of the child list, no notice) and the result is [undefined],
    also when an override post ID is passed. *)
Theorem getPosts_without_names cfg net arg w :
  pageName cfg = ""%string ∨ widgetName cfg = ""%string →
  getPosts cfg net arg w = (Returned None, w).
Proof. apply getPosts_unconfigured. Qed.

Lemma getPosts_without_names_witness :
  getPosts (mkConfig "home" "" false false false false false "block-2")
    (answering (Some [sampleRecord])) (VStr "12") quietWorld =
    (Returned None, quietWorld).
Proof.
  apply getPosts_without_names. right. reflexivity.
Defined.

(** * Override merge *)

Lemma firstUpdated_sample :
  firstUpdated [Some plainItem; Some insertingItem; Some plainItem] 1 insertingItem.
Proof.
  split; [done|]. split; [done|].
  intros [|j] it Hj Hit; [|lia].
  injection Hit as <-. exists plainItem. split; [done|]. by vm_compute.
Qed.

Lemma firstUpdated_touched :
  firstUpdated [Some plainItem; Some touchedItem] 1 touchedItem.
Proof.
  split; [done|]. split; [done|].
  intros [|j] it Hj Hit; [|lia].
  injection Hit as <-. exists plainItem. split; [done|]. by vm_compute.
Qed.

Lemma merged_length l i b inserted :
  (i < length l)%nat → length (merged l i b inserted) = S (length l).
Proof.
  intros Hi. unfold merged. rewrite length_app. simpl.
  rewrite length_take, length_drop, length_insert. lia.
Qed.

Lemma merged_lookup_before l i b inserted j :
  (i < length l)%nat → (j < i)%nat → merged l i b inserted !! j = l !! j.
Proof.
  intros Hi Hj. unfold merged.
  rewrite lookup_app_l by (rewrite length_take, length_insert; lia).
  rewrite lookup_take_lt by lia. apply list_lookup_insert_ne. lia.
Qed.

Lemma merged_lookup_flagged l i b inserted :
  (i < length l)%nat → merged l i b inserted !! i = Some (Some (cleared b)).
Proof.
  intros Hi. unfold merged.
  rewrite lookup_app_l by (rewrite length_take, length_insert; lia).
  rewrite lookup_take_lt by lia. by apply list_lookup_insert_eq.
Qed.

Lemma merged_lookup_inserted l i b inserted :
  (i < length l)%nat → merged l i b inserted !! S i = Some inserted.
Proof.
  intros Hi. unfold merged.
  rewrite lookup_app_r by (rewrite length_take, length_insert; lia).
  rewrite length_take, length_insert.
  by replace (S i - S i `min` length l)%nat with 0%nat by lia.
Qed.

Lemma merged_lookup_after l i b inserted j :
  (i < length l)%nat → (i < j)%nat → merged l i b inserted !! S j = l !! j.
Proof.
  intros Hi Hj. unfold merged.
  rewrite lookup_app_r by (rewrite length_take, length_insert; lia).
  rewrite length_take, length_insert.
  replace (S j - S i `min` length l)%nat with (S (j - S i)) by lia.
  simpl. rewrite lookup_drop.
  replace (S i + (j - S i))%nat with j by lia.
  apply list_lookup_insert_ne. lia.
Qed.

(** C1, as amended: when the first flagged item of the child list has the
    rule 'in', the page and widget names are set, the item's override post
    ID is neither [undefined] nor the empty string, and the get-posts
    endpoint answers with at least one record, the merge clears the item's
    flag and rule, fetches in peek mode with that post ID, inserts the item
    built from the first record right after the flagged item, and replaces
    the full child list with the result, which has one item more; the other
    items keep their order. *)
Theorem updateInnerBlocks_inserts_fetched cfg net w l i b record others :
  innerBlocks w = Some l → firstUpdated l i b →
  prop (attributes b) "overrideRule" = VStr "in" →
  pageName cfg ≠ ""%string → widgetName cfg ≠ ""%string →
  let overridePostID := prop (attributes b) "overridePostID" in
  let overrideExpiry := prop (attributes b) "overrideExpiry" in
  overridePostID ≠ VUndefined → overridePostID ≠ VStr "" →
  let fetch := getPostsRequest cfg overridePostID in
  get_posts net fetch = Resolved (Some (record :: others)) →
  let report :=
    updatePostRequest cfg (VStr "in") overridePostID overrideExpiry (VNum (Z.of_nat i + 1)) in
  ∃ l' b',
    updateInnerBlocks cfg net w =
      (Returned tt,
       mkWorld (Some l')
         (trace w ++ [ApiFetch fetch; ReplaceInnerBlocks (clientId cfg) l' false;
                      ApiFetch report; ackReport (update_posts net report)])) ∧
    length l' = S (length l) ∧
    l' !! i = Some (Some b') ∧
    prop (attributes b') "overrideRule" = VStr "" ∧
    prop (attributes b') "postUpdated" = VBool false ∧
    l' !! S i = Some (Some (listItem cfg record)) ∧
    (∀ j, (j < i)%nat → l' !! j = l !! j) ∧
    (∀ j, (i < j)%nat → l' !! S j = l !! j).
Proof.
  intros Hl Hfirst Hrule Hp Hw oid oexp Hdef Hpeek fetch Hresp report.
  assert (i < length l)%nat as Hlen by (destruct Hfirst as (Hi & _); by eapply lookup_lt_Some).
  exists (merged l i b (Some (listItem cfg record))), (cleared b).
  split.
  { pose proof (updateInnerBlocks_insert cfg net w l i b Hl Hfirst Hrule Hp Hw Hdef Hpeek)
      as Hrun. simpl in Hrun. fold oid oexp fetch report in Hrun.
    rewrite Hresp in Hrun. exact Hrun. }
  split; [by apply merged_length|].
  split; [by apply merged_lookup_flagged|].
  split; [apply prop_withAttribute_eq|].
  split; [unfold cleared; rewrite prop_withAttribute_ne by done; apply prop_withAttribute_eq|].
  split; [by apply merged_lookup_inserted|].
  split; intros j Hj; [by apply merged_lookup_before | by apply merged_lookup_after].
Qed.

Lemma updateInnerBlocks_inserts_fetched_witness :
  ∃ l' b',
    updateInnerBlocks sampleConfig (answering (Some [sampleRecord; otherRecord])) sampleWorld =
      (Returned tt,
       mkWorld (Some l')
         [ApiFetch (getPostsRequest sampleConfig (VNum 7));
          ReplaceInnerBlocks "block-1" l' false;
          ApiFetch (updatePostRequest sampleConfig (VStr "in") (VNum 7) (VNum 60) (VNum 2));
          ConsoleLog (VStr "ok")]) ∧
    length l' = 4%nat ∧
    l' !! 1%nat = Some (Some b') ∧
    prop (attributes b') "overrideRule" = VStr "" ∧
    prop (attributes b') "postUpdated" = VBool false ∧
    l' !! 2%nat = Some (Some (listItem sampleConfig sampleRecord)) ∧
    (∀ j, (j < 1)%nat → l' !! j = [Some plainItem; Some insertingItem; Some plainItem] !! j) ∧
    (∀ j, (1 < j)%nat →
       l' !! S j = [Some plainItem; Some insertingItem; Some plainItem] !! j).
Proof.
  exact (updateInnerBlocks_inserts_fetched sampleConfig
           (answering (Some [sampleRecord; otherRecord])) sampleWorld
           [Some plainItem; Some insertingItem; Some plainItem] 1 insertingItem
           sampleRecord [otherRecord]
           eq_refl firstUpdated_sample eq_refl ltac:(done) ltac:(done)
           ltac:(done) ltac:(done) eq_refl).
Defined.

(** C1, as stated, fails: on a block without a page name the fetch returns
    [undefined], reading its element 0 throws, and the merge stops after
    clearing the flag and the rule: nothing is inserted (the list keeps its
    three items) and the child list is not replaced. *)
Lemma updateInnerBlocks_unnamed_throws :
  firstUpdated [Some plainItem; Some insertingItem; Some plainItem] 1 insertingItem ∧
  prop (attributes insertingItem) "overrideRule" = VStr "in" ∧
  updateInnerBlocks unnamedConfig (answering (Some [sampleRecord])) sampleWorld =
    (Threw TypeError,
     mkWorld (Some [Some plainItem; Some (cleared insertingItem); Some plainItem]) []).
Proof.
  split; [exact firstUpdated_sample|]. split; [done|]. by vm_compute.
Qed.

(** C5: on a child list with no flagged item, [findIndex] answers [-1] and
    the merge returns with the world as it was: no item and no list is
    changed, and no request, write call or child replacement is made. *)
Theorem updateInnerBlocks_nothing_flagged cfg net w l :
  innerBlocks w = Some l →
  (∀ it, it ∈ l → ∃ b, it = Some b ∧ ¬ flagged b) →
  findIndex isPostUpdated l = Returned (-1) ∧
  updateInnerBlocks cfg net w = (Returned tt, w).
Proof.
  intros Hl Hnone.
  assert (findIndex isPostUpdated l = Returned (-1)) as Hfind
    by (by apply findIndex_from_none).
  split; [done|].
  unfold updateInnerBlocks.
  rewrite bind_run. unfold readInnerBlocks at 1. rewrite Hl.
  rewrite bind_run. unfold liftO. rewrite Hfind.
  by rewrite bool_decide_eq_false_2 by (intros H; by apply H).
Qed.

Lemma updateInnerBlocks_nothing_flagged_witness :
  findIndex isPostUpdated [Some plainItem; Some plainItem] = Returned (-1) ∧
  updateInnerBlocks sampleConfig (answering (Some [sampleRecord])) quietWorld =
    (Returned tt, quietWorld).
Proof.
  apply updateInnerBlocks_nothing_flagged; [reflexivity|].
  intros it Hit. exists plainItem. split; [|by vm_compute].
  apply elem_of_cons in Hit as [->|Hit]; [done|].
  apply elem_of_cons in Hit as [->|Hit]; [done|].
  by apply elem_of_nil in Hit.
Defined.

(** C7, as amended: after the insertion the merge reports the change by one
    POST request to the update-posts endpoint.  The request has no body.
    The object handed to [addQueryArgs] has exactly the properties ruleType,
    overridePostID, overrideExpiry, position, pageName and widgetName, and
    the path carries as query arguments those whose value is not
    [undefined]: ruleType, overridePostID, position, pageName and widgetName
    always, overrideExpiry when the item has one.  ruleType is 'in' and
    position is the insertion index (flagged index + 1).  It is the only
    POST request, it follows the child replacement, and the answer of the
    endpoint only chooses what is written to the console: the child list
    and all earlier calls are the same whatever the endpoint answers. *)
Theorem updateInnerBlocks_reports_by_query cfg fetchApi w l i b :
  innerBlocks w = Some l → firstUpdated l i b →
  prop (attributes b) "overrideRule" = VStr "in" →
  pageName cfg ≠ ""%string → widgetName cfg ≠ ""%string →
  let overridePostID := prop (attributes b) "overridePostID" in
  let overrideExpiry := prop (attributes b) "overrideExpiry" in
  overridePostID ≠ VUndefined → overridePostID ≠ VStr "" →
  let report :=
    mkRequest "/sophi/v1/update-posts"
      [ ("ruleType"%string, VStr "in");
        ("overridePostID"%string, overridePostID);
        ("overrideExpiry"%string, overrideExpiry);
        ("position"%string, VNum (Z.of_nat i + 1));
        ("pageName"%string, VStr (pageName cfg));
        ("widgetName"%string, VStr (widgetName cfg)) ]
      "POST" None in
  data report = None ∧
  sentQuery report =
    [ ("ruleType"%string, VStr "in");
      ("overridePostID"%string, written overridePostID) ] ++
    match overrideExpiry with
    | VUndefined => []
    | expiry => [ ("overrideExpiry"%string, written expiry) ]
    end ++
    [ ("position"%string, VNum (Z.of_nat i + 1));
      ("pageName"%string, VStr (pageName cfg));
      ("widgetName"%string, VStr (widgetName cfg)) ] ∧
  ∃ l' earlier,
    requestsBy "POST" earlier = [] ∧
    ∀ ackApi,
      updateInnerBlocks cfg (mkNetwork fetchApi ackApi) w =
        (Returned tt,
         mkWorld (Some l')
           (trace w ++ earlier ++
              [ReplaceInnerBlocks (clientId cfg) l' false;
               ApiFetch report;
               match ackApi report with
               | Resolved payload => ConsoleLog payload
               | Rejected err => ConsoleDir err
               end])).
Proof.
  intros Hl Hfirst Hrule Hp Hw oid oexp Hdef Hpeek report.
  split; [done|]. split.
  { unfold sentQuery, report. cbn [query omap list_omap fst snd].
    destruct oid; [done| | | |]; by destruct oexp. }
  set (fetch := getPostsRequest cfg oid).
  exists (merged l i b (head (listItem cfg <$> records (fetchApi fetch)))),
    ([ApiFetch fetch] ++ fetchReport (fetchApi fetch)).
  split.
  - by destruct (fetchApi fetch) as [[[|??]|]|?].
  - intros ackApi.
    pose proof (updateInnerBlocks_insert cfg (mkNetwork fetchApi ackApi) w l i b
                  Hl Hfirst Hrule Hp Hw Hdef Hpeek) as Hrun.
    simpl in Hrun. fold oid oexp fetch in Hrun. rewrite Hrun.
    by rewrite <- (assoc_L (++)).
Qed.

Lemma updateInnerBlocks_reports_by_query_witness :
  let report :=
    mkRequest "/sophi/v1/update-posts"
      [ ("ruleType"%string, VStr "in");
        ("overridePostID"%string, VNum 7);
        ("overrideExpiry"%string, VNum 60);
        ("position"%string, VNum 2);
        ("pageName"%string, VStr "home");
        ("widgetName"%string, VStr "top-stories") ]
      "POST" None in
  data report = None ∧
  sentQuery report =
    [ ("ruleType"%string, VStr "in");
      ("overridePostID"%string, VNum 7);
      ("overrideExpiry"%string, VNum 60);
      ("position"%string, VNum 2);
      ("pageName"%string, VStr "home");
      ("widgetName"%string, VStr "top-stories") ] ∧
  ∃ l' earlier,
    requestsBy "POST" earlier = [] ∧
    ∀ ackApi,
      updateInnerBlocks sampleConfig (mkNetwork (λ _, Resolved (Some [sampleRecord])) ackApi)
        sampleWorld =
        (Returned tt,
         mkWorld (Some l')
           (earlier ++
              [ReplaceInnerBlocks "block-1" l' false;
               ApiFetch report;
               match ackApi report with
               | Resolved payload => ConsoleLog payload
               | Rejected err => ConsoleDir err
               end])).
Proof.
  exact (updateInnerBlocks_reports_by_query sampleConfig (λ _, Resolved (Some [sampleRecord]))
           sampleWorld [Some plainItem; Some insertingItem; Some plainItem] 1 insertingItem
           eq_refl firstUpdated_sample eq_refl ltac:(done) ltac:(done)
           ltac:(done) ltac:(done)).
Defined.

(** For an item without an expiry the object still has its six properties,
    and the path carries five of them. *)
Lemma update_request_without_expiry :
  let run :=
    updateInnerBlocks sampleConfig (answering (Some [sampleRecord]))
      (mkWorld (Some [Some openEndedItem]) []) in
  run.1 = Returned tt ∧
  (λ r, length (query r)) <$> requestsBy "POST" (trace run.2) = [6%nat] ∧
  sentQuery <$> requestsBy "POST" (trace run.2) =
    [[ ("ruleType"%string, VStr "in");
       ("overridePostID"%string, VNum 9);
       ("position"%string, VNum 1);
       ("pageName"%string, VStr "home");
       ("widgetName"%string, VStr "top-stories") ]].
Proof. by vm_compute. Qed.

(** C7, as stated, fails: the POST request of a successful merge has no
    body; its six fields travel in the query arguments of the path. *)
Lemma update_request_has_no_body :
  let run := updateInnerBlocks sampleConfig (answering (Some [sampleRecord])) sampleWorld in
  run.1 = Returned tt ∧
  data <$> requestsBy "POST" (trace run.2) = [None] ∧
  (λ r, fst <$> query r) <$> requestsBy "POST" (trace run.2) =
    [["ruleType"; "overridePostID"; "overrideExpiry"; "position"; "pageName";
      "widgetName"]%string].
Proof. by vm_compute. Qed.

(** C8: the merge reads element 0 of the peek result without a guard: when
    the peek fetch returns the empty array, the merge still runs to its end
    and splices the missing ([undefined]) element into the child list at
    index + 1, so that the list handed to [replaceInnerBlocks] has one slot
    more and that slot is [undefined]. *)
Theorem updateInnerBlocks_splices_missing cfg net w l i b :
  innerBlocks w = Some l → firstUpdated l i b →
  prop (attributes b) "overrideRule" = VStr "in" →
  (∀ w0, (getPosts cfg net (prop (attributes b) "overridePostID") w0).1 = Returned (Some [])) →
  ∃ l' w',
    updateInnerBlocks cfg net w = (Returned tt, w') ∧
    innerBlocks w' = Some l' ∧
    l' !! S i = Some None ∧
    length l' = S (length l) ∧
    replaceCalls (drop (length (trace w)) (trace w')) = [l'].
Proof.
  intros Hl Hfirst Hrule Hempty.
  assert (i < length l)%nat as Hlen by (destruct Hfirst as (Hi & _); by eapply lookup_lt_Some).
  set (oid := prop (attributes b) "overridePostID") in *.
  specialize (Hempty w).
  destruct (decide (pageName cfg = ""%string ∨ widgetName cfg = ""%string)) as [Hcfg|Hcfg].
  { by rewrite (getPosts_unconfigured cfg net oid w Hcfg) in Hempty. }
  assert (pageName cfg ≠ ""%string ∧ widgetName cfg ≠ ""%string) as [Hp Hw]
    by (split; intros ?; apply Hcfg; auto).
  rewrite (getPosts_run cfg net oid w Hp Hw) in Hempty.
  destruct (strict_eq (default_param oid (VStr "")) (VStr "")) eqn:Hmode; [done|].
  apply strict_eq_false in Hmode.
  assert (oid ≠ VUndefined) as Hdef by (intros E; by rewrite E in Hmode).
  rewrite (default_param_defined _ _ Hdef) in Hmode, Hempty.
  simpl in Hempty. injection Hempty as Hitems.
  pose proof (updateInnerBlocks_insert cfg net w l i b Hl Hfirst Hrule Hp Hw Hdef Hmode)
    as Hrun. simpl in Hrun. fold oid in Hrun. rewrite Hitems in Hrun. simpl in Hrun.
  eexists _, _. split; [exact Hrun|]. simpl.
  split; [done|].
  split; [by apply merged_lookup_inserted|].
  split; [by apply merged_length|].
  rewrite drop_app_length.
  change (ApiFetch ?r :: ?t ++ ?u) with ([ApiFetch r] ++ t ++ u).
  rewrite !replaceCalls_app, replaceCalls_fetchReport.
  unfold replaceCalls. simpl. by destruct (update_posts net _).
Qed.

Lemma updateInnerBlocks_splices_missing_witness :
  ∃ l' w',
    updateInnerBlocks sampleConfig (answering (Some [])) sampleWorld = (Returned tt, w') ∧
    innerBlocks w' = Some l' ∧
    l' !! 2%nat = Some None ∧
    length l' = 4%nat ∧
    replaceCalls (trace w') = [l'].
Proof.
  exact (updateInnerBlocks_splices_missing sampleConfig (answering (Some [])) sampleWorld
           [Some plainItem; Some insertingItem; Some plainItem] 1 insertingItem
           eq_refl firstUpdated_sample eq_refl (λ w0, eq_refl)).
Defined.

(** C10: when the first flagged item has a rule other than 'in', the merge
    clears that item's "updated" flag and does nothing else: the trace is
    unchanged (no fetch, no child replacement, no write call), the list
    keeps its length, the item keeps its name and every other attribute,
    and every other item is unchanged. *)
Theorem updateInnerBlocks_other_rule cfg net w l i b :
  innerBlocks w = Some l → firstUpdated l i b →
  prop (attributes b) "overrideRule" ≠ VStr "in" →
  ∃ l' b',
    updateInnerBlocks cfg net w = (Returned tt, mkWorld (Some l') (trace w)) ∧
    length l' = length l ∧
    l' !! i = Some (Some b') ∧
    prop (attributes b') "postUpdated" = VBool false ∧
    blockName b' = blockName b ∧
    (∀ key, key ≠ "postUpdated"%string → attributes b' !! key = attributes b !! key) ∧
    (∀ j, j ≠ i → l' !! j = l !! j).
Proof.
  intros Hl Hfirst Hrule.
  assert (i < length l)%nat as Hlen by (destruct Hfirst as (Hi & _); by eapply lookup_lt_Some).
  exists (<[i := Some (withAttribute "postUpdated" (VBool false) b)]> l),
    (withAttribute "postUpdated" (VBool false) b).
  split; [by apply updateInnerBlocks_other|].
  split; [apply length_insert|].
  split; [by apply list_lookup_insert_eq|].
  split; [apply prop_withAttribute_eq|].
  split; [done|].
  split.
  - intros key Hkey. unfold withAttribute. simpl. by rewrite lookup_insert_ne.
  - intros j Hj. by apply list_lookup_insert_ne.
Qed.

Lemma updateInnerBlocks_other_rule_witness :
  ∃ l' b',
    updateInnerBlocks sampleConfig (answering (Some [sampleRecord])) touchedWorld =
      (Returned tt, mkWorld (Some l') []) ∧
    length l' = 2%nat ∧
    l' !! 1%nat = Some (Some b') ∧
    prop (attributes b') "postUpdated" = VBool false ∧
    blockName b' = blockName touchedItem ∧
    (∀ key, key ≠ "postUpdated"%string → attributes b' !! key = attributes touchedItem !! key) ∧
    (∀ j, j ≠ 1%nat → l' !! j = [Some plainItem; Some touchedItem] !! j).
Proof.
  exact (updateInnerBlocks_other_rule sampleConfig (answering (Some [sampleRecord]))
           touchedWorld [Some plainItem; Some touchedItem] 1 touchedItem
           eq_refl firstUpdated_touched ltac:(done)).
Defined.

(** * Further properties of list population *)

Lemma requests_app t1 t2 : requests (t1 ++ t2) = requests t1 ++ requests t2.
Proof. unfold requests. apply omap_app. Qed.

Lemma requests_fetchReport resp : requests (fetchReport resp) = [].
Proof. by destruct resp as [[[|??]|]|?]. Qed.

(** Every item a call hands out was built from a record of its answer. *)
Lemma handedOut_listItem cfg net arg w b :
  Some b ∈ handedOut (getPosts cfg net arg w) w →
  ∃ item,
    item ∈ records (get_posts net (getPostsRequest cfg (default_param arg (VStr "")))) ∧
    b = listItem cfg item.
Proof.
  intros Hb. unfold handedOut in Hb.
  destruct (decide (pageName cfg = ""%string ∨ widgetName cfg = ""%string)) as [Hcfg|Hcfg].
  - rewrite (getPosts_unconfigured cfg net arg w Hcfg) in Hb. simpl in Hb.
    rewrite drop_all in Hb. by apply elem_of_nil in Hb.
  - assert (pageName cfg ≠ ""%string ∧ widgetName cfg ≠ ""%string) as [Hp Hw]
      by (split; intros ?; apply Hcfg; auto).
    rewrite (getPosts_run cfg net arg w Hp Hw) in Hb.
    destruct (strict_eq _ _); cbn [fst snd trace] in Hb;
      rewrite drop_app_length, !replaceCalls_app, replaceCalls_fetchReport in Hb;
      simpl in Hb; rewrite ?app_nil_r in Hb;
      apply list_elem_of_fmap in Hb as (b' & [= ->] & Hin);
      apply list_elem_of_fmap in Hin as (item & -> & Hitem); by exists item.
Qed.

(** X1: a call never touches the captured child list and never writes to
    the remote API: it only appends host calls to the trace, none of them a
    POST request; and how it ends, what it returns and what it appends
    depend on the props, the remote API and the argument alone, not on the
    child list or the earlier trace of the world it is run in. *)
Theorem getPosts_frame cfg net arg :
  ∃ (result : outcome (option (list Block))) calls,
    requestsBy "POST" calls = [] ∧
    ∀ w, getPosts cfg net arg w = (result, mkWorld (innerBlocks w) (trace w ++ calls)).
Proof.
  destruct (decide (pageName cfg = ""%string ∨ widgetName cfg = ""%string)) as [Hcfg|Hcfg].
  - exists (Returned None), []. split; [done|].
    intros w. rewrite (getPosts_unconfigured cfg net arg w Hcfg).
    rewrite app_nil_r. by destruct w.
  - assert (pageName cfg ≠ ""%string ∧ widgetName cfg ≠ ""%string) as [Hp Hw]
      by (split; intros ?; apply Hcfg; auto).
    destruct (strict_eq (default_param arg (VStr "")) (VStr "")) eqn:Hmode.
    + eexists _, _. split; [|intros w;
        rewrite (getPosts_run cfg net arg w Hp Hw), Hmode; reflexivity].
      by destruct (get_posts net _) as [[[|??]|]|?].
    + eexists _, _. split; [|intros w;
        rewrite (getPosts_run cfg net arg w Hp Hw), Hmode; reflexivity].
      by destruct (get_posts net _) as [[[|??]|]|?].
Qed.

(** X2: when the transport fails, the error goes to [console.log] and
    nowhere else: no notice is raised and the call still returns normally,
    with the empty array in peek mode and, in a plain call, after replacing
    the child list with the empty list. *)
Theorem getPosts_transport_failure cfg net arg w err :
  pageName cfg ≠ ""%string → widgetName cfg ≠ ""%string →
  let overridePostID := default_param arg (VStr "") in
  let req := getPostsRequest cfg overridePostID in
  get_posts net req = Rejected err →
  (overridePostID ≠ VStr "" →
     getPosts cfg net arg w =
       (Returned (Some []),
        mkWorld (innerBlocks w) (trace w ++ [ApiFetch req; ConsoleLog err]))) ∧
  (overridePostID = VStr "" →
     getPosts cfg net arg w =
       (Returned None,
        mkWorld (innerBlocks w)
          (trace w ++ [ApiFetch req; ConsoleLog err;
                       ReplaceInnerBlocks (clientId cfg) [] false]))).
Proof.
  intros Hp Hw oid req Hresp.
  pose proof (getPosts_run cfg net arg w Hp Hw) as Hrun. simpl in Hrun.
  fold oid req in Hrun. rewrite Hresp in Hrun. simpl in Hrun.
  split; intros Hmode.
  - apply strict_eq_false in Hmode. by rewrite Hmode in Hrun.
  - apply strict_eq_true in Hmode. by rewrite Hmode in Hrun.
Qed.

Lemma getPosts_transport_failure_witness :
  getPosts sampleConfig
    (mkNetwork (λ _, Rejected (VStr "offline")) (λ _, Resolved VNull)) VUndefined
    quietWorld =
    (Returned None,
     mkWorld (innerBlocks quietWorld)
       [ApiFetch (getPostsRequest sampleConfig (VStr "")); ConsoleLog (VStr "offline");
        ReplaceInnerBlocks "block-1" [] false]).
Proof.
  refine (proj2 (getPosts_transport_failure sampleConfig
                   (mkNetwork (λ _, Rejected (VStr "offline")) (λ _, Resolved VNull))
                   VUndefined quietWorld (VStr "offline") _ _ _) _);
    [done | done | reflexivity | done].
Defined.

(** X3: an answer without a body ([null] or [undefined], which [data?.length]
    lets through) is handled like an empty array: the "not found" notice is
    raised, peek mode returns the empty array, and a plain call replaces the
    child list with the empty list. *)
Theorem getPosts_null_response cfg net arg w :
  pageName cfg ≠ ""%string → widgetName cfg ≠ ""%string →
  let overridePostID := default_param arg (VStr "") in
  let req := getPostsRequest cfg overridePostID in
  get_posts net req = Resolved None →
  (overridePostID ≠ VStr "" →
     getPosts cfg net arg w =
       (Returned (Some []),
        mkWorld (innerBlocks w) (trace w ++ [ApiFetch req; Alert notFoundMessage]))) ∧
  (overridePostID = VStr "" →
     getPosts cfg net arg w =
       (Returned None,
        mkWorld (innerBlocks w)
          (trace w ++ [ApiFetch req; Alert notFoundMessage;
                       ReplaceInnerBlocks (clientId cfg) [] false]))).
Proof.
  intros Hp Hw oid req Hresp.
  pose proof (getPosts_run cfg net arg w Hp Hw) as Hrun. simpl in Hrun.
  fold oid req in Hrun. rewrite Hresp in Hrun. simpl in Hrun.
  split; intros Hmode.
  - apply strict_eq_false in Hmode. by rewrite Hmode in Hrun.
  - apply strict_eq_true in Hmode. by rewrite Hmode in Hrun.
Qed.

Lemma getPosts_null_response_witness :
  getPosts sampleConfig (answering None) (VStr "15") quietWorld =
    (Returned (Some []),
     mkWorld (innerBlocks quietWorld)
       [ApiFetch (getPostsRequest sampleConfig (VStr "15")); Alert notFoundMessage]).
Proof.
  refine (proj1 (getPosts_null_response sampleConfig (answering None) (VStr "15")
                   quietWorld _ _ _) _); [done | done | reflexivity | done].
Defined.

(** X4: a plain call (no argument, or the empty string) on a named block
    returns [undefined] and calls [replaceInnerBlocks] exactly once, whatever
    the endpoint answers (records, nothing, or a failure): for this block,
    without moving the selection, and with a list that has one block per
    record of the answer and no [undefined] slot. *)
Theorem getPosts_plain_replaces_once cfg net arg w :
  pageName cfg ≠ ""%string → widgetName cfg ≠ ""%string →
  default_param arg (VStr "") = VStr "" →
  ∃ calls children,
    getPosts cfg net arg w =
      (Returned None,
       mkWorld (innerBlocks w)
         (trace w ++ calls ++ [ReplaceInnerBlocks (clientId cfg) children false])) ∧
    replaceCalls calls = [] ∧
    length children = length (records (get_posts net (getPostsRequest cfg (VStr "")))) ∧
    (∀ it, it ∈ children → is_Some it).
Proof.
  intros Hp Hw Hplain.
  pose proof (getPosts_run cfg net arg w Hp Hw) as Hrun. simpl in Hrun.
  rewrite Hplain in Hrun. simpl in Hrun.
  exists ([ApiFetch (getPostsRequest cfg (VStr ""))] ++
            fetchReport (get_posts net (getPostsRequest cfg (VStr "")))),
    (Some <$> (listItem cfg <$> records (get_posts net (getPostsRequest cfg (VStr ""))))).
  split; [by rewrite Hrun, <- (assoc_L (++))|].
  split; [by rewrite replaceCalls_app, replaceCalls_fetchReport|].
  split; [by rewrite !length_fmap|].
  intros it Hit. apply list_elem_of_fmap in Hit as (b & -> & _). by eexists.
Qed.

Lemma getPosts_plain_replaces_once_witness :
  ∃ calls children,
    getPosts sampleConfig (answering (Some [sampleRecord; otherRecord])) (VStr "")
      sampleWorld =
      (Returned None,
       mkWorld (innerBlocks sampleWorld)
         (calls ++ [ReplaceInnerBlocks "block-1" children false])) ∧
    replaceCalls calls = [] ∧
    length children = 2%nat ∧
    (∀ it, it ∈ children → is_Some it).
Proof.
  exact (getPosts_plain_replaces_once sampleConfig
           (answering (Some [sampleRecord; otherRecord])) (VStr "") sampleWorld
           ltac:(done) ltac:(done) eq_refl).
Defined.

(** X5: a call on a named block issues exactly one request: a GET on
    /sophi/v1/get-posts without a body, whose query carries, in this order,
    overridePostID (the argument, or the empty string), pageName, widgetName,
    displayFeaturedImage, displayAuthor, displayPostDate and
    displayPostExcept with the values of the block. *)
Theorem getPosts_single_request cfg net arg w :
  pageName cfg ≠ ""%string → widgetName cfg ≠ ""%string →
  requests (drop (length (trace w)) (trace (getPosts cfg net arg w).2)) =
    [ mkRequest "/sophi/v1/get-posts"
        [ ("overridePostID"%string, default_param arg (VStr ""));
          ("pageName"%string, VStr (pageName cfg));
          ("widgetName"%string, VStr (widgetName cfg));
          ("displayFeaturedImage"%string, VBool (displayFeaturedImage cfg));
          ("displayAuthor"%string, VBool (displayAuthor cfg));
          ("displayPostDate"%string, VBool (displayPostDate cfg));
          ("displayPostExcept"%string, VBool (displayPostExcept cfg)) ]
        "GET" None ].
Proof.
  intros Hp Hw. rewrite (getPosts_run cfg net arg w Hp Hw).
  destruct (strict_eq _ _); cbn [snd trace];
    rewrite drop_app_length, !requests_app, requests_fetchReport; done.
Qed.

Lemma getPosts_single_request_witness :
  requests (trace (getPosts sampleConfig (answering (Some [])) (VNum 7) quietWorld).2) =
    [ mkRequest "/sophi/v1/get-posts"
        [ ("overridePostID"%string, VNum 7);
          ("pageName"%string, VStr "home");
          ("widgetName"%string, VStr "top-stories");
          ("displayFeaturedImage"%string, VBool true);
          ("displayAuthor"%string, VBool false);
          ("displayPostDate"%string, VBool true);
          ("displayPostExcept"%string, VBool true) ]
        "GET" None ].
Proof.
  exact (getPosts_single_request sampleConfig (answering (Some [])) (VNum 7) quietWorld
           ltac:(done) ltac:(done)).
Defined.

(** X6: the featured image of an item the routine hands out is either the
    empty string or a truthy value taken from its record: a record without
    an image ([false], [null], [undefined], 0) never leaks a falsy non-string
    into the attribute. *)
Theorem featuredImage_empty_or_truthy cfg net arg w b :
  Some b ∈ handedOut (getPosts cfg net arg w) w →
  prop (attributes b) "featuredImage" = VStr "" ∨
  truthy (prop (attributes b) "featuredImage") = true.
Proof.
  intros Hb. apply handedOut_listItem in Hb as (item & _ & ->).
  rewrite listItem_featuredImage.
  destruct (displayFeaturedImage cfg); simpl; [|by left].
  destruct (truthy (prop item "featuredImage")) eqn:Ht; [by right | by left].
Qed.

Lemma featuredImage_empty_or_truthy_witness :
  prop (attributes (listItem sampleConfig otherRecord)) "featuredImage" = VStr "" ∨
  truthy (prop (attributes (listItem sampleConfig otherRecord)) "featuredImage") = true.
Proof.
  apply (featuredImage_empty_or_truthy sampleConfig (answering (Some [otherRecord]))
           (VNum 7) quietWorld).
  vm_compute. apply list_elem_of_here.
Defined.

(** The merge leaves a list of unflagged blocks alone. *)
Lemma updateInnerBlocks_noop cfg net w l :
  innerBlocks w = Some l →
  (∀ it, it ∈ l → ∃ b, it = Some b ∧ ¬ flagged b) →
  updateInnerBlocks cfg net w = (Returned tt, w).
Proof.
  intros Hl Hnone.
  unfold updateInnerBlocks.
  rewrite bind_run. unfold readInnerBlocks at 1. rewrite Hl.
  rewrite bind_run. unfold liftO, findIndex. rewrite (findIndex_from_none l 0 Hnone).
  by rewrite bool_decide_eq_false_2 by (intros H; by apply H).
Qed.

Lemma listItem_not_flagged cfg item : ¬ flagged (listItem cfg item).
Proof. unfold flagged. by rewrite listItem_postUpdated. Qed.

(** Whatever a call passes to [replaceInnerBlocks] is the list of the items
    built from its answer. *)
Lemma getPosts_replaced_list cfg net arg w children :
  children ∈ replaceCalls (drop (length (trace w)) (trace (getPosts cfg net arg w).2)) →
  children =
    Some <$> (listItem cfg <$>
      records (get_posts net (getPostsRequest cfg (default_param arg (VStr ""))))).
Proof.
  intros Hc.
  destruct (decide (pageName cfg = ""%string ∨ widgetName cfg = ""%string)) as [Hcfg|Hcfg].
  - rewrite (getPosts_unconfigured cfg net arg w Hcfg) in Hc. simpl in Hc.
    rewrite drop_all in Hc. by apply elem_of_nil in Hc.
  - assert (pageName cfg ≠ ""%string ∧ widgetName cfg ≠ ""%string) as [Hp Hw]
      by (split; intros ?; apply Hcfg; auto).
    rewrite (getPosts_run cfg net arg w Hp Hw) in Hc.
    destruct (strict_eq _ _); cbn [snd trace] in Hc;
      rewrite drop_app_length, !replaceCalls_app, replaceCalls_fetchReport in Hc;
      simpl in Hc.
    + by apply list_elem_of_singleton in Hc.
    + by apply elem_of_nil in Hc.
Qed.

(** X7: list population and the merge compose without a loop: the items
    built by a call are page-list-items that are not flagged and carry no
    override rule, so on any child list that a call hands to
    [replaceInnerBlocks] the merge does nothing. *)
Theorem merge_ignores_populated_list cfg net arg w children cfg' net' t :
  children ∈ replaceCalls (drop (length (trace w)) (trace (getPosts cfg net arg w).2)) →
  (∀ it, it ∈ children →
     ∃ b, it = Some b ∧ blockName b = "sophi/page-list-item"%string ∧
          prop (attributes b) "postUpdated" = VBool false ∧
          prop (attributes b) "overrideRule" = VUndefined) ∧
  updateInnerBlocks cfg' net' (mkWorld (Some children) t) =
    (Returned tt, mkWorld (Some children) t).
Proof.
  intros Hc. apply getPosts_replaced_list in Hc.
  assert (∀ it, it ∈ children → ∃ item, it = Some (listItem cfg item)) as Hbuilt.
  { intros it Hit. rewrite Hc in Hit.
    apply list_elem_of_fmap in Hit as (b & -> & Hb).
    apply list_elem_of_fmap in Hb as (item & -> & _). by exists item. }
  split.
  - intros it Hit. destruct (Hbuilt it Hit) as (item & ->).
    exists (listItem cfg item). by repeat split.
  - apply (updateInnerBlocks_noop cfg' net' _ children); [done|].
    intros it Hit. destruct (Hbuilt it Hit) as (item & ->).
    exists (listItem cfg item). split; [done | apply listItem_not_flagged].
Qed.

Lemma merge_ignores_populated_list_witness :
  updateInnerBlocks unnamedConfig (answering None)
    (mkWorld (Some [Some (listItem sampleConfig sampleRecord)]) []) =
    (Returned tt, mkWorld (Some [Some (listItem sampleConfig sampleRecord)]) []).
Proof.
  refine (proj2 (merge_ignores_populated_list sampleConfig (answering (Some [sampleRecord]))
                   VUndefined quietWorld [Some (listItem sampleConfig sampleRecord)]
                   unnamedConfig (answering None) [] _)).
  vm_compute. apply list_elem_of_here.
Defined.

(** * Further properties of the override merge *)

Lemma cleared_not_flagged b : ¬ flagged (cleared b).
Proof.
  unfold flagged, cleared. rewrite prop_withAttribute_ne by done.
  by rewrite prop_withAttribute_eq.
Qed.

Lemma unflag_not_flagged b : ¬ flagged (withAttribute "postUpdated" (VBool false) b).
Proof. unfold flagged. by rewrite prop_withAttribute_eq. Qed.

Lemma firstUpdated_lt l i b : firstUpdated l i b → (i < length l)%nat.
Proof. intros (Hi & _). by eapply lookup_lt_Some. Qed.

(** [findIndex] throws on an [undefined] slot that comes before any flagged
    item. *)
Lemma findIndex_from_undefined before after k :
  (∀ it, it ∈ before → ∃ b, it = Some b ∧ ¬ flagged b) →
  findIndex_from isPostUpdated (before ++ None :: after) k = Threw TypeError.
Proof.
  revert k. induction before as [|x before IH]; intros k H; [done|].
  simpl. destruct (H x) as (b & -> & Hnf); [by left|].
  rewrite (isPostUpdated_not_flagged _ Hnf). apply IH.
  intros it Hit. apply H. by right.
Qed.

(** When the peek fetch returns the empty array, the block is named, the
    post ID given, and the answer without records. *)
Lemma peek_empty_inv cfg net oid w :
  (getPosts cfg net oid w).1 = Returned (Some []) →
  pageName cfg ≠ ""%string ∧ widgetName cfg ≠ ""%string ∧
  oid ≠ VUndefined ∧ oid ≠ VStr "" ∧
  listItem cfg <$> records (get_posts net (getPostsRequest cfg oid)) = [].
Proof.
  intros Hempty.
  destruct (decide (pageName cfg = ""%string ∨ widgetName cfg = ""%string)) as [Hcfg|Hcfg].
  { by rewrite (getPosts_unconfigured cfg net oid w Hcfg) in Hempty. }
  assert (pageName cfg ≠ ""%string ∧ widgetName cfg ≠ ""%string) as [Hp Hw]
    by (split; intros ?; apply Hcfg; auto).
  rewrite (getPosts_run cfg net oid w Hp Hw) in Hempty.
  destruct (strict_eq (default_param oid (VStr "")) (VStr "")) eqn:Hmode; [done|].
  apply strict_eq_false in Hmode.
  assert (oid ≠ VUndefined) as Hdef by (intros E; by rewrite E in Hmode).
  rewrite (default_param_defined _ _ Hdef) in Hmode, Hempty.
  simpl in Hempty. injection Hempty as Hitems. done.
Qed.

(** X8: when the selector gave no child array ([innerBlocks] is
    [undefined]) the merge returns at once and the world is untouched, for
    every configuration and remote API. *)
Theorem updateInnerBlocks_without_children cfg net w :
  innerBlocks w = None → updateInnerBlocks cfg net w = (Returned tt, w).
Proof.
  intros Hl. unfold updateInnerBlocks.
  rewrite bind_run. unfold readInnerBlocks at 1. by rewrite Hl.
Qed.

Lemma updateInnerBlocks_without_children_witness :
  updateInnerBlocks sampleConfig (answering (Some [sampleRecord])) (mkWorld None []) =
    (Returned tt, mkWorld None []).
Proof. apply updateInnerBlocks_without_children. reflexivity. Defined.

(** X9: a child list with an [undefined] slot before any flagged item stops
    the merge in [findIndex]: reading [attributes] of the slot throws, and
    nothing is changed or sent, even when a flagged item with the rule 'in'
    follows. *)
Theorem updateInnerBlocks_undefined_slot cfg net w before after :
  innerBlocks w = Some (before ++ None :: after) →
  (∀ it, it ∈ before → ∃ b, it = Some b ∧ ¬ flagged b) →
  updateInnerBlocks cfg net w = (Threw TypeError, w).
Proof.
  intros Hl Hbefore. unfold updateInnerBlocks.
  rewrite bind_run. unfold readInnerBlocks at 1. rewrite Hl.
  rewrite bind_run. unfold liftO, findIndex.
  by rewrite (findIndex_from_undefined before after 0 Hbefore).
Qed.

Lemma updateInnerBlocks_undefined_slot_witness :
  updateInnerBlocks sampleConfig (answering (Some [sampleRecord]))
    (mkWorld (Some ([Some plainItem] ++ None :: [Some insertingItem])) []) =
    (Threw TypeError, mkWorld (Some ([Some plainItem] ++ None :: [Some insertingItem])) []).
Proof.
  apply (updateInnerBlocks_undefined_slot _ _ _ [Some plainItem] [Some insertingItem]);
    [reflexivity|].
  intros it Hit. exists plainItem. split; [|by vm_compute].
  apply elem_of_cons in Hit as [->|Hit]; [done|]. by apply elem_of_nil in Hit.
Defined.

(** X10: on a block without a page or widget name, an insertion request is
    lost: the merge clears the item's flag and rule, then throws on the
    [undefined] result of the fetch; no request is sent, nothing is
    inserted, [replaceInnerBlocks] is not called, and every other item and
    attribute is as before. *)
Theorem updateInnerBlocks_unnamed_loses_request cfg net w l i b :
  innerBlocks w = Some l → firstUpdated l i b →
  prop (attributes b) "overrideRule" = VStr "in" →
  pageName cfg = ""%string ∨ widgetName cfg = ""%string →
  ∃ l' b',
    updateInnerBlocks cfg net w = (Threw TypeError, mkWorld (Some l') (trace w)) ∧
    length l' = length l ∧
    l' !! i = Some (Some b') ∧
    prop (attributes b') "postUpdated" = VBool false ∧
    prop (attributes b') "overrideRule" = VStr "" ∧
    (∀ key, key ≠ "postUpdated"%string → key ≠ "overrideRule"%string →
       attributes b' !! key = attributes b !! key) ∧
    (∀ j, j ≠ i → l' !! j = l !! j).
Proof.
  intros Hl Hfirst Hrule Hcfg.
  pose proof (firstUpdated_lt l i b Hfirst) as Hlen.
  exists (<[i := Some (cleared b)]> l), (cleared b).
  split; [by apply updateInnerBlocks_unconfigured|].
  split; [apply length_insert|].
  split; [by apply list_lookup_insert_eq|].
  split; [unfold cleared; rewrite prop_withAttribute_ne by done;
          apply prop_withAttribute_eq|].
  split; [apply prop_withAttribute_eq|].
  split.
  - intros key H1 H2. unfold cleared, withAttribute. simpl.
    by rewrite !lookup_insert_ne.
  - intros j Hj. by apply list_lookup_insert_ne.
Qed.

Lemma updateInnerBlocks_unnamed_loses_request_witness :
  ∃ l' b',
    updateInnerBlocks (mkConfig "home" "" true true true true true "block-3")
      (answering (Some [sampleRecord])) sampleWorld =
      (Threw TypeError, mkWorld (Some l') []) ∧
    length l' = 3%nat ∧
    l' !! 1%nat = Some (Some b') ∧
    prop (attributes b') "postUpdated" = VBool false ∧
    prop (attributes b') "overrideRule" = VStr "" ∧
    (∀ key, key ≠ "postUpdated"%string → key ≠ "overrideRule"%string →
       attributes b' !! key = attributes insertingItem !! key) ∧
    (∀ j, j ≠ 1%nat → l' !! j = [Some plainItem; Some insertingItem; Some plainItem] !! j).
Proof.
  exact (updateInnerBlocks_unnamed_loses_request
           (mkConfig "home" "" true true true true true "block-3")
           (answering (Some [sampleRecord])) sampleWorld
           [Some plainItem; Some insertingItem; Some plainItem] 1 insertingItem
           eq_refl firstUpdated_sample eq_refl (or_intror eq_refl)).
Defined.



Lemma requests_ackReport resp : requests [ackReport resp] = [].
Proof. by destruct resp. Qed.

(** X12: when the peek fetch returns the empty array (no record, or a
    failed request), the merge still reports an insertion to the
    update-posts endpoint: after the fetch it sends the POST with rule
    'in', the item's post ID and expiry, and position index + 1, although no
    post was fetched. *)
Theorem updateInnerBlocks_reports_missing cfg net w l i b :
  innerBlocks w = Some l → firstUpdated l i b →
  prop (attributes b) "overrideRule" = VStr "in" →
  (∀ w0, (getPosts cfg net (prop (attributes b) "overridePostID") w0).1 = Returned (Some [])) →
  (updateInnerBlocks cfg net w).1 = Returned tt ∧
  requests (drop (length (trace w)) (trace (updateInnerBlocks cfg net w).2)) =
    [ getPostsRequest cfg (prop (attributes b) "overridePostID");
      updatePostRequest cfg (VStr "in") (prop (attributes b) "overridePostID")
        (prop (attributes b) "overrideExpiry") (VNum (Z.of_nat i + 1)) ].
Proof.
  intros Hl Hfirst Hrule Hempty.
  destruct (peek_empty_inv cfg net _ w (Hempty w)) as (Hp & Hw & Hdef & Hpeek & Hitems).
  rewrite (updateInnerBlocks_insert cfg net w l i b Hl Hfirst Hrule Hp Hw Hdef Hpeek).
  split; [done|]. cbn [snd trace].
  rewrite drop_app_length, !requests_app, requests_fetchReport. simpl.
  by destruct (update_posts net _).
Qed.

Lemma updateInnerBlocks_reports_missing_witness :
  (updateInnerBlocks sampleConfig
     (mkNetwork (λ _, Rejected (VStr "offline")) (λ _, Resolved VNull)) sampleWorld).1 =
    Returned tt ∧
  requests (trace (updateInnerBlocks sampleConfig
     (mkNetwork (λ _, Rejected (VStr "offline")) (λ _, Resolved VNull)) sampleWorld).2) =
    [ getPostsRequest sampleConfig (VNum 7);
      updatePostRequest sampleConfig (VStr "in") (VNum 7) (VNum 60) (VNum 2) ].
Proof.
  exact (updateInnerBlocks_reports_missing sampleConfig
           (mkNetwork (λ _, Rejected (VStr "offline")) (λ _, Resolved VNull)) sampleWorld
           [Some plainItem; Some insertingItem; Some plainItem] 1 insertingItem
           eq_refl firstUpdated_sample eq_refl (λ w0, eq_refl)).
Defined.

(** The items of a merged list. *)
Lemma merged_elem_of l i b inserted it :
  (i < length l)%nat → it ∈ merged l i b inserted →
  it = Some (cleared b) ∨ it = inserted ∨ ∃ j, j ≠ i ∧ l !! j = Some it.
Proof.
  intros Hi Hit. apply list_elem_of_lookup in Hit as [k Hk].
  destruct (decide (k < i)%nat) as [Hlt|Hge].
  - right. right. exists k. split; [lia|].
    by rewrite <- (merged_lookup_before l i b inserted k Hi Hlt).
  - destruct (decide (k = i)) as [->|Hne].
    + left. rewrite (merged_lookup_flagged l i b inserted Hi) in Hk. by injection Hk.
    + destruct (decide (k = S i)) as [->|Hne'].
      * right. left. rewrite (merged_lookup_inserted l i b inserted Hi) in Hk.
        by injection Hk.
      * right. right. destruct k as [|k]; [lia|]. exists k. split; [lia|].
        rewrite <- (merged_lookup_after l i b inserted k Hi); [done | lia].
Qed.

(** X13: the merge does not fire twice for one request.  When the flagged
    item is the only flagged item of the list and the merge returns
    normally (having inserted a fetched item, if the rule was 'in'), the
    list it leaves has no flagged item, so running the merge again on it,
    with any configuration and remote API, changes nothing and sends
    nothing. *)
Theorem updateInnerBlocks_second_run cfg net w l i b cfg' net' :
  innerBlocks w = Some l →
  l !! i = Some (Some b) → flagged b →
  (∀ j it, j ≠ i → l !! j = Some it → ∃ b', it = Some b' ∧ ¬ flagged b') →
  (updateInnerBlocks cfg net w).1 = Returned tt →
  (prop (attributes b) "overrideRule" = VStr "in" →
     records (get_posts net (getPostsRequest cfg (prop (attributes b) "overridePostID")))
       ≠ []) →
  updateInnerBlocks cfg' net' (updateInnerBlocks cfg net w).2 =
    (Returned tt, (updateInnerBlocks cfg net w).2).
Proof.
  intros Hl Hi Hf Hothers Hret Hrecords.
  assert (firstUpdated l i b) as Hfirst.
  { split; [done|]. split; [done|]. intros j it Hj. apply Hothers. lia. }
  pose proof (firstUpdated_lt l i b Hfirst) as Hlen.
  destruct (decide (prop (attributes b) "overrideRule" = VStr "in")) as [Hrule|Hrule].
  - specialize (Hrecords Hrule).
    destruct (decide (pageName cfg = ""%string ∨ widgetName cfg = ""%string)) as [Hcfg|Hcfg].
    { by rewrite (updateInnerBlocks_unconfigured cfg net w l i b Hl Hfirst Hrule Hcfg)
        in Hret. }
    assert (pageName cfg ≠ ""%string ∧ widgetName cfg ≠ ""%string) as [Hp Hw]
      by (split; intros ?; apply Hcfg; auto).
    destruct (decide (default_param (prop (attributes b) "overridePostID") (VStr "")
                      = VStr "")) as [Hplain|Hpeek].
    { by rewrite (updateInnerBlocks_plain_fetch cfg net w l i b Hl Hfirst Hrule Hp Hw Hplain)
        in Hret. }
    assert (prop (attributes b) "overridePostID" ≠ VUndefined) as Hdef
      by (intros E; by rewrite E in Hpeek).
    rewrite (default_param_defined _ _ Hdef) in Hpeek.
    rewrite (updateInnerBlocks_insert cfg net w l i b Hl Hfirst Hrule Hp Hw Hdef Hpeek).
    cbn [snd]. eapply updateInnerBlocks_noop; [done|].
    intros it Hit. apply (merged_elem_of l i b _ it Hlen) in Hit as [->|[->|(j & Hj & Hit)]].
    + exists (cleared b). split; [done | apply cleared_not_flagged].
    + destruct (records _) as [|record others]; [done|]. simpl.
      exists (listItem cfg record). split; [done | apply listItem_not_flagged].
    + by apply (Hothers j).
  - rewrite (updateInnerBlocks_other cfg net w l i b Hl Hfirst Hrule).
    cbn [snd]. eapply updateInnerBlocks_noop; [done|].
    intros it Hit. apply list_elem_of_lookup in Hit as [j Hj].
    destruct (decide (j = i)) as [->|Hne].
    + rewrite list_lookup_insert_eq in Hj by done. injection Hj as <-.
      eexists. split; [done | apply unflag_not_flagged].
    + rewrite list_lookup_insert_ne in Hj by done. by apply (Hothers j).
Qed.

Lemma updateInnerBlocks_second_run_witness :
  updateInnerBlocks unnamedConfig (answering None)
    (updateInnerBlocks sampleConfig (answering (Some [sampleRecord])) sampleWorld).2 =
    (Returned tt,
     (updateInnerBlocks sampleConfig (answering (Some [sampleRecord])) sampleWorld).2).
Proof.
  apply (updateInnerBlocks_second_run sampleConfig (answering (Some [sampleRecord]))
           sampleWorld [Some plainItem; Some insertingItem; Some plainItem] 1 insertingItem).
  - reflexivity.
  - reflexivity.
  - reflexivity.
  - intros [|[|[|j]]] it Hj Hit; try done; injection Hit as <-;
      exists plainItem; (split; [done | by vm_compute]).
  - reflexivity.
  - intros _. by vm_compute.
Defined.

(** X14: [updatePost] sends exactly one request, the POST to
    /sophi/v1/update-posts, and swallows its outcome: an acknowledgement goes
    to [console.log], a failure to [console.dir], and in both cases the call
    returns normally without touching the child list, calling
    [replaceInnerBlocks] or raising a notice. *)
Theorem updatePost_frame cfg net ruleType overridePostID overrideExpiry position w :
  ∃ report,
    updatePost cfg net ruleType overridePostID overrideExpiry position w =
      (Returned tt,
       mkWorld (innerBlocks w)
         (trace w ++
            [ApiFetch (updatePostRequest cfg ruleType overridePostID overrideExpiry position);
             report])) ∧
    match update_posts net
            (updatePostRequest cfg ruleType overridePostID overrideExpiry position) with
    | Resolved payload => report = ConsoleLog payload
    | Rejected err => report = ConsoleDir err
    end ∧
    method (updatePostRequest cfg ruleType overridePostID overrideExpiry position)
      = "POST"%string ∧
    path (updatePostRequest cfg ruleType overridePostID overrideExpiry position)
      = "/sophi/v1/update-posts"%string.
Proof.
  eexists. split; [apply updatePost_run|].
  split; [|done]. by destruct (update_posts net _).
Qed.

Lemma flaggedCount_app l1 l2 :
  flaggedCount (l1 ++ l2) = (flaggedCount l1 + flaggedCount l2)%nat.
Proof. unfold flaggedCount. by rewrite List.filter_app, length_app. Qed.

Lemma flaggedCount_cons x l :
  flaggedCount (x :: l) = ((if isFlagged x then 1 else 0) + flaggedCount l)%nat.
Proof. unfold flaggedCount. simpl. by destruct (isFlagged x). Qed.

Lemma isFlagged_true b : flagged b → isFlagged (Some b) = true.
Proof. intros H. by apply strict_eq_true. Qed.

Lemma isFlagged_false b : ¬ flagged b → isFlagged (Some b) = false.
Proof. intros H. by apply strict_eq_false. Qed.

(** Overwriting a flagged item with an unflagged one takes one flag away. *)
Lemma flaggedCount_insert l i b x :
  l !! i = Some (Some b) → flagged b → isFlagged x = false →
  S (flaggedCount (<[i := x]> l)) = flaggedCount l.
Proof.
  intros Hi Hf Hx.
  rewrite insert_take_drop by (by eapply lookup_lt_Some).
  rewrite <- (take_drop_middle l i (Some b) Hi) at 3.
  rewrite !flaggedCount_app, !flaggedCount_cons, Hx, (isFlagged_true b Hf). lia.
Qed.

(** Splicing an unflagged slot in adds no flag. *)
Lemma flaggedCount_splice l n x :
  isFlagged x = false → flaggedCount (take n l ++ x :: drop n l) = flaggedCount l.
Proof.
  intros Hx. rewrite flaggedCount_app, flaggedCount_cons, Hx. simpl.
  by rewrite <- flaggedCount_app, take_drop.
Qed.

(** X15: every call of the merge that finds a flagged item takes exactly one
    flag off the captured child list, whatever the item's rule, the
    configuration and the answers of the remote API are, and also when the
    call ends by throwing: the count of flagged items goes down by one. *)
Theorem updateInnerBlocks_consumes_one_flag cfg net w l i b :
  innerBlocks w = Some l → firstUpdated l i b →
  ∃ l',
    innerBlocks (updateInnerBlocks cfg net w).2 = Some l' ∧
    S (flaggedCount l') = flaggedCount l.
Proof.
  intros Hl Hfirst.
  pose proof Hfirst as (Hi & Hf & _).
  pose proof (firstUpdated_lt l i b Hfirst) as Hlen.
  assert (S (flaggedCount (<[i := Some (cleared b)]> l)) = flaggedCount l) as Hcleared.
  { apply (flaggedCount_insert l i b); [done | done |].
    apply isFlagged_false, cleared_not_flagged. }
  destruct (decide (prop (attributes b) "overrideRule" = VStr "in")) as [Hrule|Hrule].
  - destruct (decide (pageName cfg = ""%string ∨ widgetName cfg = ""%string)) as [Hcfg|Hcfg].
    { rewrite (updateInnerBlocks_unconfigured cfg net w l i b Hl Hfirst Hrule Hcfg).
      by eexists. }
    assert (pageName cfg ≠ ""%string ∧ widgetName cfg ≠ ""%string) as [Hp Hw]
      by (split; intros ?; apply Hcfg; auto).
    destruct (decide (default_param (prop (attributes b) "overridePostID") (VStr "")
                      = VStr "")) as [Hplain|Hpeek].
    { rewrite (updateInnerBlocks_plain_fetch cfg net w l i b Hl Hfirst Hrule Hp Hw Hplain).
      by eexists. }
    assert (prop (attributes b) "overridePostID" ≠ VUndefined) as Hdef
      by (intros E; by rewrite E in Hpeek).
    rewrite (default_param_defined _ _ Hdef) in Hpeek.
    rewrite (updateInnerBlocks_insert cfg net w l i b Hl Hfirst Hrule Hp Hw Hdef Hpeek).
    eexists. split; [done|]. unfold merged.
    rewrite flaggedCount_splice; [done|].
    destruct (records _) as [|record others]; [done|].
    apply (isFlagged_false (listItem cfg record)), listItem_not_flagged.
  - rewrite (updateInnerBlocks_other cfg net w l i b Hl Hfirst Hrule).
    eexists. split; [done|].
    apply (flaggedCount_insert l i b); [done | done |].
    apply isFlagged_false, unflag_not_flagged.
Qed.

Lemma updateInnerBlocks_consumes_one_flag_witness :
  ∃ l',
    innerBlocks (updateInnerBlocks unnamedConfig (answering None)
                   (mkWorld (Some [Some insertingItem; Some touchedItem]) [])).2 = Some l' ∧
    S (flaggedCount l') = 2%nat.
Proof.
  refine (updateInnerBlocks_consumes_one_flag unnamedConfig (answering None)
            (mkWorld (Some [Some insertingItem; Some touchedItem]) [])
            [Some insertingItem; Some touchedItem] 0 insertingItem eq_refl _).
  split; [done|]. split; [done|]. intros j it Hj. lia.
Defined.

(** * The rendered view *)

Lemma truthy_named cfg :
  truthy (jsAnd (VStr (pageName cfg)) (VStr (widgetName cfg))) =
    negb (bool_decide (pageName cfg = ""%string ∨ widgetName cfg = ""%string)).
Proof.
  unfold jsAnd. simpl.
  destruct (decide (pageName cfg = ""%string)) as [Hp|Hp];
    destruct (decide (widgetName cfg = ""%string)) as [Hw|Hw].
  - rewrite (bool_decide_eq_true_2 _ Hp). simpl.
    rewrite (bool_decide_eq_true_2 _ Hp). simpl.
    by rewrite bool_decide_eq_true_2 by (by left).
  - rewrite (bool_decide_eq_true_2 _ Hp). simpl.
    rewrite (bool_decide_eq_true_2 _ Hp). simpl.
    by rewrite bool_decide_eq_true_2 by (by left).
  - rewrite (bool_decide_eq_false_2 _ Hp). simpl.
    rewrite (bool_decide_eq_true_2 _ Hw). simpl.
    by rewrite bool_decide_eq_true_2 by (by right).
  - rewrite (bool_decide_eq_false_2 _ Hp). simpl.
    rewrite (bool_decide_eq_false_2 _ Hw). simpl.
    by rewrite bool_decide_eq_false_2 by (intros [?|?]; done).
Qed.

Lemma getPosts_requests cfg net arg w :
  pageName cfg ≠ ""%string → widgetName cfg ≠ ""%string →
  requests (drop (length (trace w)) (trace (getPosts cfg net arg w).2)) =
    [getPostsRequest cfg (default_param arg (VStr ""))].
Proof.
  intros Hp Hw. rewrite (getPosts_run cfg net arg w Hp Hw).
  destruct (strict_eq _ _); cbn [snd trace];
    rewrite drop_app_length, !requests_app, requests_fetchReport; done.
Qed.

(** X16: the view and the fetch agree on when the block is set up.  The
    placeholder is rendered exactly when the child area is not, the
    server-side preview exactly when the child area is, and the child area
    is rendered exactly when a call of [getPosts] with the same props sends
    its request (both names non-empty). *)
Theorem render_matches_fetch_guard blockProps cfg net arg w :
  existsb isPlaceholder (renderBody blockProps cfg) =
    negb (existsb isInnerBlocksArea (renderBody blockProps cfg)) ∧
  existsb isServerSideRender (renderBody blockProps cfg) =
    existsb isInnerBlocksArea (renderBody blockProps cfg) ∧
  (existsb isInnerBlocksArea (renderBody blockProps cfg) = true ↔
     requests (drop (length (trace w)) (trace (getPosts cfg net arg w).2)) ≠ []).
Proof.
  unfold renderBody, renderWhen. cbn zeta. rewrite truthy_named.
  destruct (decide (pageName cfg = ""%string ∨ widgetName cfg = ""%string)) as [Hcfg|Hcfg].
  - rewrite (bool_decide_eq_true_2 _ Hcfg). simpl.
    rewrite (getPosts_unconfigured cfg net arg w Hcfg). simpl.
    rewrite drop_all. by repeat split.
  - rewrite (bool_decide_eq_false_2 _ Hcfg). simpl.
    assert (pageName cfg ≠ ""%string ∧ widgetName cfg ≠ ""%string) as [Hp Hw]
      by (split; intros ?; apply Hcfg; auto).
    rewrite (getPosts_requests cfg net arg w Hp Hw).
    by repeat split.
Qed.

(** X17: every control of the inspector is bound to the attribute it shows:
    once its [onChange] handler has passed a new value to [setAttributes],
    the control of the same label displays that value in the next render.
    Every other control shown before displays in the next render what it
    displayed, with one exception: switching "Display featured image" off
    hides the "Add link to featured image" toggle.  Every other control of
    the next render was shown before with the same value, with one
    exception: switching "Display featured image" on brings that toggle
    up. *)
Theorem inspector_controls_round_trip cfg c :
  c ∈ allControls cfg →
  match c with
  | TextControl label _ onChange => ∀ v, rebinds cfg label (onChange v) (VStr v)
  | ToggleControl label _ onChange => ∀ v, rebinds cfg label (onChange v) (VBool v)
  end.
Proof.
  destruct cfg as [p wn ex au da fi al cid].
  unfold allControls, inspectorControls. simpl.
  intros Hc.
  destruct fi; simpl in Hc;
    repeat (apply elem_of_cons in Hc as [->|Hc]);
    try (by apply elem_of_nil in Hc);
    intros v; unfold rebinds, allControls, inspectorControls; cbn zeta;
    (split; [try reflexivity; destruct v; reflexivity|]);
    (split; intros c' Hc' Hne;
     simpl in Hc'; try (destruct v; simpl in Hc');
     repeat (apply elem_of_cons in Hc' as [->|Hc']);
     try (by apply elem_of_nil in Hc');
     try done;
     first [by left | right; by repeat split]).
Qed.

Lemma inspector_controls_round_trip_witness :
  rebinds sampleConfig "Display featured image" (PatchDisplayFeaturedImage false)
    (VBool false).
Proof.
  refine (inspector_controls_round_trip sampleConfig
            (ToggleControl "Display featured image" true PatchDisplayFeaturedImage) _ false).
  vm_compute. do 5 apply list_elem_of_further. apply list_elem_of_here.
Defined.
